(* ===== verification/_CoqProject ===== *)
-Q . S2P
Prelude.v
CInt.v
Float32.v
Json.v
Lot.v
Http.v
Fetcher.v
Scheduler.v
Config.v
Main.v
