(* ===== verification/Prelude.v ===== *)
(** * StalAucUI: a verification development of the STALCRAFT auction monitor

    The program ([src/main.cpp]) is a single-window ImGui tool that polls the
    STALCRAFT auction API for the lots of one item in one region and shows them
    in a table.  Its parts, and how they interact:

    - [fetchLots] (lines 42-73) pages through
      [GET https://eapi.stalcraft.net/{region}/auction/{itemId}/lots?offset=o&limit=100]
      with a bearer token, parses each body with nlohmann::json, and appends
      every lot whose [startTime] is not yet in the global
      [std::set knownStartTimes] to the global [std::vector lots], which it
      clears first.  It stops on a non-200 status, on a body without a
      [lots] array, or on a page of fewer than 100 lots.
    - [drawUI] (lines 75-114) runs once per frame.  It calls [fetchLots] when
      auto-refresh is on and more than 10 s have passed since
      [lastFetchTime], and again when the "refresh" button was clicked.  It
      toggles auto-refresh from a checkbox and renders the lot count and a
      table whose third column is [buyoutPrice / max(1, amount)].
    - [main] (lines 116-160) reads [api_key], [region] and [item_id] from
      the configuration object, then runs the GLFW/OpenGL frame loop around
      [drawUI].

    The two globals [lots] and [knownStartTimes] and the two [static]s of
    [drawUI] are the whole mutable state.  Every call is synchronous: a fetch
    cycle runs to completion inside the frame that starts it.

    ** Layout of the library (in dependency order)

    - [Prelude] (this file) holds the C++ abnormal terminations ([fault]),
      the exception monad [exn] with its [let*] notation in [stal_scope]
      and its list loop [exn_map], the [outcome] type of fuelled loops, the
      hint database [stal] and the tactics and generic lemmas the
      components share.
    - [CInt] models fixed-width C++ integers: two's complement conversion
      ([static_cast<int32_t>], [static_cast<int64_t>]), the limits of
      [int], and [int64_t] division with its undefined cases (zero divisor,
      [INT64_MIN / -1]).
    - [Float32] models the store of a [double] time into a [float] (line
      81): rounding to 24 significant bits, to nearest, ties to even.
    - [Json] models the nlohmann::json values the program touches, with the
      accessors it calls: [contains], const and non-const [operator[]],
      [is_array], [size], and the conversions to [std::string], [int64_t]
      and [int32_t], each with the exception it throws.  A lookup finds the
      last duplicate key, as the parser keeps it.
    - [Lot] models [struct LotData], its construction from a JSON lot
      (lines 58-66), and the row of the table (lines 100-108) with the
      unit-price division.
    - [Http] models the request [fetchLots] sends (URL built with
      [std::to_string], bearer header), the response [cpr::Get] returns,
      the [PagedEndpoint] interface the fetcher is proved against, and a paged
      stub endpoint that decodes the URL; the decoding round trip proves the
      stub meets the interface.
    - [Fetcher] models [fetchLots]: the session state (the two globals), one
      lot, one page, the fuelled [while (true)] loop, and the cycle.
    - [Scheduler] models [drawUI]: the per-frame state (the two statics and
      the session), one frame as a function, the frame loop of [main] as a
      function over the list of frames ([run_frames]) and its reachable
      states as an inductive relation, and the rendered view.
    - [Config] models [loadConfig] (lines 32-40) and the three reads of
      [main] (lines 117-120) with the exceptions they throw.
    - [Main] models [main] (lines 116-160): configuration, the exit when
      [glfwInit] fails, the undefined behaviour when [glfwCreateWindow]
      returns NULL, the frame loop, and the exit status.

    ** What the theorems show

    - Lots and JSON (Lot): decoding an encoded lot gives it back; a lot
      is built from any JSON integers, read modulo [2^64] and [2^32]; the
      unit-price division is never undefined, is bounded, and truncates.
    - The URL (Http): [std::to_string] and the URL layout encode offset and
      limit so that they can be read back.
    - A cycle (Fetcher): against a paged server it terminates with the
      reference deduplication [dedup] and one request per page (a
      refinement); it is idempotent; it keeps the session invariant (start
      times distinct and known) whatever the server answers; it stops
      quietly on a bad status or a body without [lots], but crashes on an
      unparsable body, on a lot without [startTime] and on the overflow of
      [offset]; against any server it ends within 21474837 iterations; the
      three non-const [result["lots"]] accesses equal one lookup.
    - Frames (Scheduler): the invariant holds in every reachable state; the
      auto-refresh gate with its rounded timestamp, the manual refresh that
      keeps the timer, the first 10 s without automatic fetch, the blank
      table when both triggers fire in one frame; with auto-refresh on and
      no click, no frame shows data older than 10 s during the first 5.3
      years, and after about 8.5 years the rounding of the timestamp makes
      every frame fetch.
    - The process (Config, Main): the configuration reads and their errors;
      every request sent is an authorized page request of the configured
      item, and the exit status follows [glfwInit].

    ** Modelling choices, bounds and fuel

    - The [while (true)] loop of [fetchLots] is a [Fixpoint] on a fuel
      argument.  [OutOfFuel] is a separate [outcome], never confused with a
      result.  Against a server serving [n] lots in pages, fuel
      [n / 100 + 1] is enough; against any server, fuel 21474837 is
      enough, because [offset] grows by 100 per page and its overflow past
      [INT32_MAX] is a fault.  The frame loop of [main] runs over a finite
      list of frames, the frames shown before the window closes; each frame
      is given the same fuel for its cycles.
    - [offset] is an [int]: [offset += limit] is checked against
      [INT32_MAX].  Overflow is undefined behaviour, modelled as the fault
      [UndefinedBehavior], as are a division by zero and a null window.
    - An exception that leaves [fetchLots] is not caught anywhere (not in
      [drawUI], not in [main]), so the process ends in [std::terminate].
      The model returns the fault and no state, so the requests of a run
      that crashes are not recorded.
    - The body text of a response is modelled by the outcome of
      [json::parse] on it: a JSON value, or a parse error.  The JSON
      grammar itself belongs to nlohmann::json and is not modelled.
    - Time: [ImGui::GetTime()] returns a [double] in seconds.  The model
      takes frame times on the grid of [2^-20] s, as integers in that unit,
      so [10.0f] is [10 * 2^20].  Below [2^33] s the difference of line 79
      is exact on the grid.  The store into [float lastFetchTime] (line 81)
      is rounded exactly as a [float] is ([Float32.fl32]).

    ** Not modelled

    Rendering, windowing and OpenGL calls (ImGui, ImPlot, GLFW; lines
    122-134, the calls of lines 137-150 around [drawUI], and 153-158) hold
    no state of the program: they are modelled only by the values
    [drawUI] displays, the frame times, clicks and [BeginTable] result it
    reads, and the results of [glfwInit] and [glfwCreateWindow].  Frame
    times off the [2^-20] s grid, and times beyond [2^33] s, where the
    subtraction of line 79 itself rounds, are not modelled.  The JSON
    grammar of [json::parse] and [operator>>] is nlohmann's: a text is
    modelled by what the parser makes of it.  The file system is a
    function from file names to those outcomes.  JSON floating-point
    numbers are left out of [json]: the program reads only integers and
    strings, and [get<int64_t>] on a float, which truncates, is not
    reached by the lots the theorems consider. *)

From stdpp Require Import base list gmap strings.
From Stdlib Require Import ZArith Lia.

Declare Scope stal_scope.
Delimit Scope stal_scope with stal.

Create HintDb stal discriminated.
Create Rewrite HintDb stal_rw.

(** ** Abnormal terminations *)

(** A C++ exception that nothing catches, or undefined behaviour.  Either one
    ends the process. *)
Inductive fault :=
  | ParseError                   (** [nlohmann::json::parse_error] *)
  | TypeError (id : Z)           (** [nlohmann::json::type_error], by id *)
  | RuntimeError (what : string) (** [std::runtime_error] *)
  | UndefinedBehavior (what : string).

#[export] Instance fault_eq_dec : EqDecision fault.
Proof. solve_decision. Defined.

(** ** The exception monad *)

Definition exn (A : Type) : Type := (fault + A)%type.

Definition exn_ret {A} (a : A) : exn A := inr a.
Definition throw {A} (f : fault) : exn A := inl f.

Definition exn_bind {A B} (c : exn A) (k : A -> exn B) : exn B :=
  match c with
  | inl f => inl f
  | inr a => k a
  end.

Notation "'let*' x ':=' c 'in' k" := (exn_bind c (fun x => k))
  (at level 10, x name, c at level 100, k at level 200,
   format "'let*'  x  ':='  c  'in' '//' k") : stal_scope.

Notation "'let*' ' p ':=' c 'in' k" := (exn_bind c (fun x => match x with p => k end))
  (at level 10, p pattern, c at level 100, k at level 200,
   format "'let*'  ' p  ':='  c  'in' '//' k") : stal_scope.

Open Scope stal_scope.

(** A loop that applies [f] to each element in order and stops at the first
    exception. *)
Fixpoint exn_map {A B} (f : A -> exn B) (l : list A) : exn (list B) :=
  match l with
  | [] => exn_ret []
  | x :: rest =>
      let* y := f x in
      let* ys := exn_map f rest in
      exn_ret (y :: ys)
  end.

(** ** Fuelled loops *)

(** What a loop that is given fuel produces: its final value, the fault that
    ended the process, or not enough fuel to finish. *)
Inductive outcome (A : Type) :=
  | Done (a : A)
  | Crashed (f : fault)
  | OutOfFuel.
Arguments Done {A} a.
Arguments Crashed {A} f.
Arguments OutOfFuel {A}.

Definition of_exn {A} (c : exn A) : outcome A :=
  match c with
  | inl f => Crashed f
  | inr a => Done a
  end.

Definition outcome_bind {A B} (o : outcome A) (k : A -> outcome B) : outcome B :=
  match o with
  | Done a => k a
  | Crashed f => Crashed f
  | OutOfFuel => OutOfFuel
  end.

Notation "'let!' x ':=' c 'in' k" := (outcome_bind c (fun x => k))
  (at level 10, x name, c at level 100, k at level 200,
   format "'let!'  x  ':='  c  'in' '//' k") : stal_scope.

Notation "'let!' ' p ':=' c 'in' k" := (outcome_bind c (fun x => match x with p => k end))
  (at level 10, p pattern, c at level 100, k at level 200,
   format "'let!'  ' p  ':='  c  'in' '//' k") : stal_scope.

Definition outcome_tag {A} (o : outcome A) : nat :=
  match o with Done _ => 0 | Crashed _ => 1 | OutOfFuel => 2 end.

(** ** Generic lemmas *)

Lemma exn_bind_inr {A B} (a : A) (k : A -> exn B) : exn_bind (inr a) k = k a.
Proof. reflexivity. Qed.

Lemma exn_bind_inl {A B} (f : fault) (k : A -> exn B) : exn_bind (inl f) k = inl f.
Proof. reflexivity. Qed.

Lemma exn_bind_eq_inr {A B} (c : exn A) (k : A -> exn B) b :
  exn_bind c k = inr b -> exists a, c = inr a /\ k a = inr b.
Proof. destruct c; simpl; [discriminate | eauto]. Qed.

Lemma exn_bind_eq_inl {A B} (c : exn A) (k : A -> exn B) f :
  exn_bind c k = inl f -> c = inl f \/ exists a, c = inr a /\ k a = inl f.
Proof. destruct c; simpl; [intros [= ->]; auto | eauto]. Qed.

Lemma outcome_bind_eq_Done {A B} (o : outcome A) (k : A -> outcome B) b :
  outcome_bind o k = Done b -> exists a, o = Done a /\ k a = Done b.
Proof. destruct o; simpl; [eauto | discriminate | discriminate]. Qed.

#[export] Hint Rewrite @exn_bind_inr @exn_bind_inl : stal_rw.

(** Splits every [exn_bind ... = inr _] hypothesis into its two halves. *)
Ltac exn_inv :=
  unfold exn_ret, throw in *;
  repeat match goal with
  | H : exn_bind _ _ = inr _ |- _ =>
      let a := fresh "a" in let Ha := fresh "Ha" in
      apply exn_bind_eq_inr in H as (a & Ha & H)
  | H : inr _ = inr _ |- _ => injection H as H; subst
  | H : inl _ = inr _ |- _ => discriminate H
  | H : outcome_bind _ _ = Done _ |- _ =>
      let a := fresh "a" in let Ha := fresh "Ha" in
      apply outcome_bind_eq_Done in H as (a & Ha & H)
  | H : Done _ = Done _ |- _ => injection H; clear H; intros; subst
  end.

(** Splits the binds of a hypothesis and every match and [if] on the way. *)
Ltac exn_split := repeat (progress exn_inv || case_match).

(** For witnesses: names the value [r] of a closed run [t], with [E : t = r],
    keeping [r] opaque so that no goal mentioning [t] is rewritten. *)
Ltac name_run t r E :=
  pose (r := t); assert (E : t = r) by reflexivity; clearbody r.

(** For witnesses: refutes [E : run = r] for a closed [run] that computes to
    an outcome of another constructor, computing the constructor only. *)
Ltac refute_by_compute E :=
  apply (f_equal outcome_tag) in E; vm_compute in E; discriminate E.

(** Lists of keys: [NoDup] of a map after a snoc. *)
Lemma NoDup_map_snoc {A B} (f : A -> B) (l : list A) (x : A) :
  NoDup (map f l) -> f x ∉ map f l -> NoDup (map f (l ++ [x])).
Proof.
  intros Hnd Hx. rewrite map_app. simpl.
  apply NoDup_app. split; [done|]. split.
  - intros y Hy Hy'. apply list_elem_of_singleton in Hy'. subst. done.
  - apply NoDup_singleton.
Qed.

#[export] Hint Resolve NoDup_map_snoc : stal.
