(* ===== verification/CInt.v ===== *)
(** * Fixed-width C++ integers

    [int], [int32_t] and [int64_t] as [Z] with their bounds.  A conversion
    [static_cast<intN_t>] reduces modulo [2^N] into the two's complement range.
    Since C++20 that is the defined behaviour, and before that it was what
    every compiler of the program's targets did.  [/] on integers truncates
    toward zero, which is [Z.quot]; a zero divisor, and the quotient
    [INT64_MIN / -1] that does not fit, are undefined behaviour. *)

From stdpp Require Import base strings.
From Stdlib Require Import ZArith Lia.
From S2P Require Import Prelude.

Open Scope Z_scope.

Module CInt.

Definition INT32_MIN : Z := - 2 ^ 31.
Definition INT32_MAX : Z := 2 ^ 31 - 1.
Definition INT64_MIN : Z := - 2 ^ 63.
Definition INT64_MAX : Z := 2 ^ 63 - 1.

(** [static_cast<intW_t>(z)]: the representative of [z] modulo [2^w] in
    [[-2^(w-1), 2^(w-1))]. *)
Definition wrap (w : Z) (z : Z) : Z :=
  let r := z mod 2 ^ w in
  if r <? 2 ^ (w - 1) then r else r - 2 ^ w.

Definition to_int32 (z : Z) : Z := wrap 32 z.
Definition to_int64 (z : Z) : Z := wrap 64 z.

Definition in_int32 (z : Z) : bool := (INT32_MIN <=? z) && (z <=? INT32_MAX).
Definition in_int64 (z : Z) : bool := (INT64_MIN <=? z) && (z <=? INT64_MAX).

(** [std::max(a, b)] on [int]. *)
Definition cmax (a b : Z) : Z := if a <? b then b else a.

(** [a / b] on [int64_t]: truncation toward zero, undefined for a zero
    divisor and for the overflowing [INT64_MIN / -1]. *)
Definition cdiv (a b : Z) : exn Z :=
  if b =? 0 then throw (UndefinedBehavior "division by zero")
  else if (a =? INT64_MIN) && (b =? -1)
  then throw (UndefinedBehavior "signed overflow in division")
  else exn_ret (Z.quot a b).

(** ** Lemmas *)

Lemma wrap_range w z : 0 < w -> - 2 ^ (w - 1) <= wrap w z < 2 ^ (w - 1).
Proof.
  intros Hw. unfold wrap.
  assert (Hp : 2 ^ w = 2 * 2 ^ (w - 1)).
  { rewrite <- Z.pow_succ_r by lia. f_equal. lia. }
  assert (0 < 2 ^ (w - 1)) by (apply Z.pow_pos_nonneg; lia).
  pose proof (Z.mod_pos_bound z (2 ^ w)) as Hb.
  destruct (Z.ltb_spec (z mod 2 ^ w) (2 ^ (w - 1))); lia.
Qed.

Lemma wrap_small w z : 0 < w -> - 2 ^ (w - 1) <= z < 2 ^ (w - 1) -> wrap w z = z.
Proof.
  intros Hw Hz. unfold wrap.
  assert (Hp : 2 ^ w = 2 * 2 ^ (w - 1)).
  { rewrite <- Z.pow_succ_r by lia. f_equal. lia. }
  destruct (Z.leb_spec 0 z).
  - rewrite Z.mod_small by lia.
    destruct (Z.ltb_spec z (2 ^ (w - 1))); lia.
  - rewrite <- (Z.mod_add z 1 (2 ^ w)) by lia.
    rewrite Z.mod_small by lia.
    destruct (Z.ltb_spec (z + 1 * 2 ^ w) (2 ^ (w - 1))); lia.
Qed.

Lemma wrap_congr w z : 0 < w -> (wrap w z - z) mod 2 ^ w = 0.
Proof.
  intros Hw. unfold wrap.
  assert (0 < 2 ^ w) by (apply Z.pow_pos_nonneg; lia).
  destruct (Z.ltb_spec (z mod 2 ^ w) (2 ^ (w - 1))).
  - rewrite Zminus_mod, Z.mod_mod, Z.sub_diag by lia. reflexivity.
  - replace (z mod 2 ^ w - 2 ^ w - z) with (z mod 2 ^ w - z + (-1) * 2 ^ w) by lia.
    rewrite Z.mod_add by lia.
    rewrite Zminus_mod, Z.mod_mod, Z.sub_diag by lia. reflexivity.
Qed.

Lemma to_int32_range z : INT32_MIN <= to_int32 z <= INT32_MAX.
Proof. unfold to_int32, INT32_MIN, INT32_MAX. pose proof (wrap_range 32 z). lia. Qed.

Lemma to_int64_range z : INT64_MIN <= to_int64 z <= INT64_MAX.
Proof. unfold to_int64, INT64_MIN, INT64_MAX. pose proof (wrap_range 64 z). lia. Qed.

Lemma to_int32_id z : INT32_MIN <= z <= INT32_MAX -> to_int32 z = z.
Proof. unfold INT32_MIN, INT32_MAX. intros. apply wrap_small; lia. Qed.

Lemma to_int64_id z : INT64_MIN <= z <= INT64_MAX -> to_int64 z = z.
Proof. unfold INT64_MIN, INT64_MAX. intros. apply wrap_small; lia. Qed.

Lemma cmax_spec a b : cmax a b = Z.max a b.
Proof. unfold cmax. destruct (Z.ltb_spec a b); lia. Qed.

(** A positive divisor is defined behaviour. *)
Lemma cdiv_pos a d : 1 <= d -> cdiv a d = inr (Z.quot a d).
Proof.
  intros Hd. unfold cdiv. rewrite (proj2 (Z.eqb_neq d 0)) by lia.
  rewrite (proj2 (Z.eqb_neq d (-1)) ltac:(lia)), andb_false_r. reflexivity.
Qed.

(** Dividing by a positive divisor keeps the sign and does not grow the
    magnitude. *)
Lemma quot_between a d :
  1 <= d -> (0 <= a -> 0 <= Z.quot a d <= a) /\ (a < 0 -> a <= Z.quot a d <= 0).
Proof.
  intros Hd.
  assert (Hnn : forall x, 0 <= x -> 0 <= x ÷ d <= x).
  { intros x Hx. rewrite Z.quot_div_nonneg by lia. split.
    - apply Z.div_pos; lia.
    - apply Z.div_le_upper_bound; nia. }
  split; [apply Hnn|].
  intros Ha. replace a with (- (- a)) by lia.
  rewrite Z.quot_opp_l by lia. specialize (Hnn (- a) ltac:(lia)). lia.
Qed.

End CInt.

#[export] Hint Resolve CInt.to_int32_range CInt.to_int64_range : stal.
