(* ===== verification/Float32.v ===== *)
(** * The [float] store of a time

    [drawUI] keeps the time of the last automatic fetch in
    [static float lastFetchTime] (line 77) and stores into it the [double]
    that [ImGui::GetTime()] returns (line 81).  The store rounds to the
    nearest [float], ties to even.

    Times are integers in units of [2^-20] s: the frame times of the model
    are the doubles on that grid.  Below [2^33] s every such value and every
    difference of two of them is a [double] exactly, and so are [10.0f] and
    [0.0f], so the test of line 79 is exact on the grid.  The store is the
    only rounding.  A [float] has 24 significant bits, so [fl32] rounds the
    integer [t] to 24 significant bits.  Scaling by a power of two commutes
    with that rounding, and the grid is far above the subnormal range. *)

From Stdlib Require Import ZArith Lia.
From S2P Require Import Prelude.

Open Scope Z_scope.

Module Float32.

(** Rounding of a non-negative [t] to 24 significant bits, to nearest,
    ties to the even significand. *)
Definition fl32_pos (t : Z) : Z :=
  if t <? 2 ^ 24 then t
  else
    let ulp := 2 ^ (Z.log2 t - 23) in
    let q := t / ulp in
    let r := t mod ulp in
    if ((ulp <? 2 * r) || ((2 * r =? ulp) && Z.odd q))%bool then (q + 1) * ulp else q * ulp.

(** [(float) t]: the conversion is symmetric in the sign. *)
Definition fl32 (t : Z) : Z := if t <? 0 then - fl32_pos (- t) else fl32_pos t.

(** ** Lemmas *)

Lemma fl32_pos_error t : 0 <= t -> Z.abs (fl32_pos t - t) * 2 ^ 24 <= t.
Proof.
  intros Ht. unfold fl32_pos. destruct (Z.ltb_spec t (2 ^ 24)) as [Hs|Hs].
  { rewrite Z.sub_diag. simpl. lia. }
  assert (Hn : 24 <= Z.log2 t) by (apply Z.log2_le_pow2; lia).
  destruct (Z.log2_spec t ltac:(lia)) as [Hlo _].
  assert (Hu : 2 ^ (Z.log2 t - 23) * 2 ^ 23 = 2 ^ Z.log2 t)
    by (rewrite <- Z.pow_add_r by lia; f_equal; lia).
  assert (Hpos : 0 < 2 ^ (Z.log2 t - 23)) by (apply Z.pow_pos_nonneg; lia).
  change (2 ^ 24) with (2 * 2 ^ 23).
  set (ulp := 2 ^ (Z.log2 t - 23)) in *.
  pose proof (Z.div_mod t ulp ltac:(lia)) as Hdm.
  pose proof (Z.mod_pos_bound t ulp Hpos) as Hr.
  set (q := t / ulp) in *. set (r := t mod ulp) in *.
  destruct (Z.ltb_spec ulp (2 * r)); destruct (Z.eqb_spec (2 * r) ulp); destruct (Z.odd q);
    simpl; nia.
Qed.

(** The store keeps a time to within one part in [2^24] of its magnitude:
    half a unit in the last of 24 significant bits. *)
Lemma fl32_error t : Z.abs (fl32 t - t) * 2 ^ 24 <= Z.abs t.
Proof.
  unfold fl32. destruct (Z.ltb_spec t 0).
  - pose proof (fl32_pos_error (- t) ltac:(lia)).
    replace (- fl32_pos (- t) - t) with (- (fl32_pos (- t) - - t)) by lia.
    rewrite Z.abs_opp. lia.
  - pose proof (fl32_pos_error t ltac:(lia)). lia.
Qed.

(** A time below [2^24] units (16 s) is stored exactly. *)
Lemma fl32_small t : Z.abs t < 2 ^ 24 -> fl32 t = t.
Proof.
  intros H. unfold fl32, fl32_pos.
  destruct (Z.ltb_spec t 0).
  - rewrite (proj2 (Z.ltb_lt (- t) (2 ^ 24))) by lia. lia.
  - rewrite (proj2 (Z.ltb_lt t (2 ^ 24))) by lia. reflexivity.
Qed.

End Float32.
