(* ===== verification/Json.v ===== *)
(** * The nlohmann::json values and accessors the program uses

    [json] has the value kinds that [json::parse] produces for the bodies the
    program reads.  Floating-point numbers are left out.  The parser stores a
    non-negative integer literal as [number_unsigned] ([JUInt]) and a
    negative one as [number_integer] ([JInt]).  An object is the parser's
    [std::map], given as the list of its members in text order; a lookup
    finds the last member with the key, as the parser keeps the last
    duplicate.  The program iterates only over arrays, so the order of the
    members of an object never shows.

    Each accessor the program calls returns [exn]: the exception nlohmann
    throws (type_error 302 for a conversion from the wrong kind, 305 for
    [operator[]] on a non-object), or undefined behaviour for the const
    [operator[]] on a missing key, which nlohmann only guards with an
    assertion. *)

From stdpp Require Import base list strings.
From Stdlib Require Import ZArith Lia.
From S2P Require Import Prelude CInt.

Open Scope Z_scope.

Module Json.

Local Set Warnings "-register-all".

Inductive json :=
  | JNull
  | JBool (b : bool)
  | JInt (z : Z)                          (** number_integer (int64_t) *)
  | JUInt (z : Z)                         (** number_unsigned (uint64_t) *)
  | JString (s : string)
  | JArray (elems : list json)
  | JObject (fields : list (string * json)).

(** The value of [key] in an object.  The parser stores an object in a
    [std::map] and a duplicate key overwrites the earlier value, so the last
    occurrence of [key] in the text is the one found. *)
Fixpoint assoc (fields : list (string * json)) (key : string) : option json :=
  match fields with
  | [] => None
  | (k, v) :: rest =>
      match assoc rest key with
      | Some w => Some w
      | None => if String.eqb k key then Some v else None
      end
  end.

Definition is_object (j : json) : bool :=
  match j with JObject _ => true | _ => false end.

(** [j.is_array()] *)
Definition is_array (j : json) : bool :=
  match j with JArray _ => true | _ => false end.

(** [j.contains(key)]: false on every non-object. *)
Definition contains (j : json) (key : string) : bool :=
  match j with
  | JObject fs => match assoc fs key with Some _ => true | None => false end
  | _ => false
  end.

(** [j.size()] *)
Definition size (j : json) : nat :=
  match j with
  | JNull => 0
  | JArray l => length l
  | JObject fs => length fs
  | _ => 1
  end.

(** The const [operator[](key)]: a lookup on an object; a missing key is
    undefined behaviour (JSON_ASSERT); a non-object throws type_error 305. *)
Definition at_const (j : json) (key : string) : exn json :=
  match j with
  | JObject fs =>
      match assoc fs key with
      | Some v => inr v
      | None => throw (UndefinedBehavior "const operator[] on a missing key")
      end
  | _ => throw (TypeError 305)
  end.

(** The non-const [operator[](key)]: null becomes an object; a missing key is
    inserted with a null value.  Returns the updated value and the element. *)
Definition at_mut (j : json) (key : string) : exn (json * json) :=
  match j with
  | JNull => inr (JObject [(key, JNull)], JNull)
  | JObject fs =>
      match assoc fs key with
      | Some v => inr (j, v)
      | None => inr (JObject (fs ++ [(key, JNull)]), JNull)
      end
  | _ => throw (TypeError 305)
  end.

(** The implicit conversion to [std::string] ([get<std::string>()]). *)
Definition get_string (j : json) : exn string :=
  match j with
  | JString s => inr s
  | _ => throw (TypeError 302)
  end.

(** [get<int64_t>()]: through [get_arithmetic_value], which accepts the
    three number kinds only. *)
Definition get_int64 (j : json) : exn Z :=
  match j with
  | JInt z => inr (CInt.to_int64 z)
  | JUInt z => inr (CInt.to_int64 z)
  | _ => throw (TypeError 302)
  end.

(** [get<int32_t>()]: through the overload for other arithmetic types, which
    also accepts a boolean. *)
Definition get_int32 (j : json) : exn Z :=
  match j with
  | JInt z => inr (CInt.to_int32 z)
  | JUInt z => inr (CInt.to_int32 z)
  | JBool b => inr (if b then 1 else 0)
  | _ => throw (TypeError 302)
  end.

(** The elements a range-for over an array visits, in order. *)
Definition items (j : json) : list json :=
  match j with
  | JArray l => l
  | JObject fs => map snd fs
  | _ => []
  end.

(** ** Lemmas *)

Lemma contains_at_const j key :
  contains j key = true -> exists v, at_const j key = inr v.
Proof.
  destruct j; simpl; try discriminate.
  destruct (assoc fields key); [eauto | discriminate].
Qed.

Lemma contains_at_mut j key :
  contains j key = true ->
  exists v, at_mut j key = inr (j, v) /\ at_const j key = inr v.
Proof.
  destruct j; simpl; try discriminate.
  destruct (assoc fields key); [eauto | discriminate].
Qed.

Lemma get_int64_range j z : get_int64 j = inr z -> CInt.INT64_MIN <= z <= CInt.INT64_MAX.
Proof. destruct j; simpl; intros; exn_inv; auto with stal; discriminate. Qed.

Lemma get_int32_range j z : get_int32 j = inr z -> CInt.INT32_MIN <= z <= CInt.INT32_MAX.
Proof.
  destruct j; simpl; intros; exn_inv; auto with stal; try discriminate.
  destruct b; cbv; split; discriminate.
Qed.

End Json.
