(* ===== verification/Lot.v ===== *)
(** * [struct LotData], its construction from JSON, and its table row

    [read_startTime] and [make_lot] are the two halves of one iteration of the
    inner loop of [fetchLots].  [startTime] is read first (line 58), and the
    other fields only after the duplicate check (lines 61-66), in the order of
    the braced initializer.  [row] is what [drawUI] prints for one lot (lines
    100-108).  Its third column is [buyoutPrice / std::max(1, amount)]:
    an [int64_t] division, truncating toward zero, whose undefined cases
    (a zero divisor, [INT64_MIN / -1]) are faults of the model. *)

From stdpp Require Import base list strings.
From Stdlib Require Import ZArith Lia.
From S2P Require Import Prelude CInt Json.
Import Json.

Open Scope Z_scope.

Module Lot.

Record LotData := mkLot {
  itemId : string;
  buyoutPrice : Z;      (** int64_t *)
  amount : Z;           (** int32_t *)
  startTime : string
}.

(** [std::string startTime = lot["startTime"];] *)
Definition read_startTime (lot : json) : exn string :=
  let* v := at_const lot "startTime" in get_string v.

(** [{ lot["itemId"], lot["buyoutPrice"].get<int64_t>(),
       lot["amount"].get<int32_t>(), startTime }] *)
Definition make_lot (lot : json) (st : string) : exn LotData :=
  let* vi := at_const lot "itemId" in
  let* i := get_string vi in
  let* vb := at_const lot "buyoutPrice" in
  let* b := get_int64 vb in
  let* va := at_const lot "amount" in
  let* a := get_int32 va in
  exn_ret (mkLot i b a st).

(** [lot.buyoutPrice / std::max(1, lot.amount)]: an [int64_t] divided by an
    [int], so an [int64_t] division, with its undefined cases. *)
Definition unit_price (l : LotData) : exn Z :=
  CInt.cdiv (buyoutPrice l) (CInt.cmax 1 (amount l)).

(** The four cells of a table row: price, amount, unit price, start time. *)
Record row := mkRow {
  cell_price : Z;
  cell_amount : Z;
  cell_unit : Z;
  cell_startTime : string
}.

(** Lines 100-108: the cells in column order; the third one divides. *)
Definition row_of (l : LotData) : exn row :=
  let* u := unit_price l in
  exn_ret (mkRow (buyoutPrice l) (amount l) u (startTime l)).

(** A lot as the API encodes it (spec, section 6): an object with the four
    fields, numbers as the parser stores them. *)
Definition json_num (z : Z) : json := if z <? 0 then JInt z else JUInt z.

Definition lot_json (l : LotData) : json :=
  JObject [("itemId", JString (itemId l));
           ("buyoutPrice", json_num (buyoutPrice l));
           ("amount", json_num (amount l));
           ("startTime", JString (startTime l))].

(** A lot whose numbers fit the C++ field types. *)
Definition lot_in_range (l : LotData) : Prop :=
  CInt.INT64_MIN <= buyoutPrice l <= CInt.INT64_MAX /\
  CInt.INT32_MIN <= amount l <= CInt.INT32_MAX.

#[export] Instance lot_in_range_dec l : Decision (lot_in_range l).
Proof. unfold lot_in_range. apply _. Defined.

(** ** Lemmas *)

Lemma divisor_pos l : 1 <= CInt.cmax 1 (amount l).
Proof. rewrite CInt.cmax_spec. lia. Qed.

(** The guard makes the division defined for every lot. *)
Lemma unit_price_quot l : unit_price l = inr (Z.quot (buyoutPrice l) (Z.max 1 (amount l))).
Proof. unfold unit_price. rewrite CInt.cdiv_pos by apply divisor_pos. by rewrite CInt.cmax_spec. Qed.

Lemma row_of_ok l :
  row_of l = inr (mkRow (buyoutPrice l) (amount l)
                        (Z.quot (buyoutPrice l) (Z.max 1 (amount l))) (startTime l)).
Proof. unfold row_of. by rewrite unit_price_quot. Qed.

Lemma get_int64_json_num z :
  CInt.INT64_MIN <= z <= CInt.INT64_MAX -> get_int64 (json_num z) = inr z.
Proof.
  intros H. unfold json_num. destruct (z <? 0); simpl; by rewrite CInt.to_int64_id.
Qed.

Lemma get_int32_json_num z :
  CInt.INT32_MIN <= z <= CInt.INT32_MAX -> get_int32 (json_num z) = inr z.
Proof.
  intros H. unfold json_num. destruct (z <? 0); simpl; by rewrite CInt.to_int32_id.
Qed.

Lemma make_lot_startTime j st l : make_lot j st = inr l -> startTime l = st.
Proof. unfold make_lot. intros H. exn_inv. reflexivity. Qed.

Lemma read_startTime_lot_json l : read_startTime (lot_json l) = inr (startTime l).
Proof. reflexivity. Qed.

(** ** Properties *)

(** Decoding an encoded in-range lot. *)
Lemma lot_json_decodes (l : LotData) :
  lot_in_range l ->
  read_startTime (lot_json l) = inr (startTime l) /\
  make_lot (lot_json l) (startTime l) = inr l.
Proof.
  intros [Hb Ha]. split; [reflexivity|].
  unfold make_lot. simpl.
  rewrite get_int64_json_num, get_int32_json_num by done.
  by destruct l.
Qed.

(** C3: reading a lot back from its API encoding gives the lot itself, for
    every lot whose numbers fit [int64_t] and [int32_t]. *)
Theorem make_lot_roundtrip (l : LotData) :
  lot_in_range l ->
  read_startTime (lot_json l) = inr (startTime l) /\
  make_lot (lot_json l) (startTime l) = inr l.
Proof. apply lot_json_decodes. Qed.

Example make_lot_roundtrip_witness :
  lot_in_range (mkLot "u2" 1000 5 "2026-11-09T10:00:00Z") /\
  make_lot (lot_json (mkLot "u2" 1000 5 "2026-11-09T10:00:00Z")) "2026-11-09T10:00:00Z"
    = inr (mkLot "u2" 1000 5 "2026-11-09T10:00:00Z").
Proof.
  assert (H : lot_in_range (mkLot "u2" 1000 5 "2026-11-09T10:00:00Z"))
    by (unfold lot_in_range, CInt.INT64_MIN, CInt.INT64_MAX,
          CInt.INT32_MIN, CInt.INT32_MAX; simpl; lia).
  split; [exact H | apply (make_lot_roundtrip _ H)].
Defined.

(** C9: the unit price divides by 1, not by the amount, when the amount is
    at most 1 (zero, negative, or absent and converted from a boolean): no
    division by zero, and the price itself is shown. *)
Theorem unit_price_small_amount (l : LotData) :
  amount l <= 1 -> unit_price l = inr (buyoutPrice l).
Proof.
  intros H. rewrite unit_price_quot, Z.max_l by lia. by rewrite Z.quot_1_r.
Qed.

Example unit_price_small_amount_witness :
  amount (mkLot "u2" 1000 0 "t") <= 1 /\ unit_price (mkLot "u2" 1000 0 "t") = inr 1000.
Proof.
  split; [simpl; lia | exact (unit_price_small_amount (mkLot "u2" 1000 0 "t") ltac:(simpl; lia))].
Defined.

(** C10: the division is never undefined: for every in-range lot it is
    defined (no zero divisor, no overflowing quotient) and its result is no
    larger in magnitude than the price, so it fits [int64_t]. *)
Theorem unit_price_bounds (l : LotData) :
  lot_in_range l ->
  exists q, unit_price l = inr q /\ Z.abs q <= Z.abs (buyoutPrice l) /\
            CInt.INT64_MIN <= q <= CInt.INT64_MAX.
Proof.
  intros [Hb _]. eexists. split; [apply unit_price_quot|].
  pose proof (CInt.quot_between (buyoutPrice l) (Z.max 1 (amount l)) ltac:(lia)) as Hq.
  unfold CInt.INT64_MIN, CInt.INT64_MAX in *.
  destruct (Z.leb_spec 0 (buyoutPrice l)); lia.
Qed.

Example unit_price_bounds_witness :
  lot_in_range (mkLot "u2" (- 7) 2 "t") /\
  exists q, unit_price (mkLot "u2" (- 7) 2 "t") = inr q /\ Z.abs q <= Z.abs (- 7) /\
            CInt.INT64_MIN <= q <= CInt.INT64_MAX.
Proof.
  assert (H : lot_in_range (mkLot "u2" (- 7) 2 "t"))
    by (unfold lot_in_range, CInt.INT64_MIN, CInt.INT64_MAX,
          CInt.INT32_MIN, CInt.INT32_MAX; simpl; lia).
  split; [exact H | apply (unit_price_bounds _ H)].
Defined.

(** C11: for a non-negative price and a positive amount the unit price is the
    floor of price over amount; for a negative price it rounds toward zero. *)
Theorem unit_price_floor (l : LotData) :
  0 <= buyoutPrice l -> 1 <= amount l ->
  exists q, unit_price l = inr q /\ q * amount l <= buyoutPrice l < (q + 1) * amount l.
Proof.
  intros Hb Ha. eexists. split; [apply unit_price_quot|].
  rewrite Z.max_r by lia. rewrite Z.quot_div_nonneg by lia.
  pose proof (Z.mul_div_le (buyoutPrice l) (amount l) ltac:(lia)).
  pose proof (Z.mod_pos_bound (buyoutPrice l) (amount l) ltac:(lia)).
  pose proof (Z.div_mod (buyoutPrice l) (amount l) ltac:(lia)).
  nia.
Qed.

Example unit_price_floor_witness :
  0 <= buyoutPrice (mkLot "u2" 1000 3 "t") /\ 1 <= amount (mkLot "u2" 1000 3 "t") /\
  (exists q, unit_price (mkLot "u2" 1000 3 "t") = inr q /\ q * 3 <= 1000 < (q + 1) * 3) /\
  unit_price (mkLot "u2" (- 1000) 3 "t") = inr (- 333).
Proof.
  split; [simpl; lia|]. split; [simpl; lia|]. split; [|reflexivity].
  exact (unit_price_floor (mkLot "u2" 1000 3 "t") ltac:(simpl; lia) ltac:(simpl; lia)).
Defined.

(** C24: reading a lot never rejects an out-of-range number: a price or an
    amount given as any JSON integer is read modulo [2^64] or [2^32] into
    the range of its field, and the lot is built. *)
Theorem make_lot_wraps fields st i b a :
  assoc fields "itemId" = Some (JString i) ->
  (assoc fields "buyoutPrice" = Some (JInt b) \/ assoc fields "buyoutPrice" = Some (JUInt b)) ->
  (assoc fields "amount" = Some (JInt a) \/ assoc fields "amount" = Some (JUInt a)) ->
  exists l, make_lot (JObject fields) st = inr l /\
    (buyoutPrice l - b) mod 2 ^ 64 = 0 /\ CInt.INT64_MIN <= buyoutPrice l <= CInt.INT64_MAX /\
    (amount l - a) mod 2 ^ 32 = 0 /\ CInt.INT32_MIN <= amount l <= CInt.INT32_MAX.
Proof.
  intros Hi Hb Ha. unfold make_lot. cbn. rewrite Hi. cbn.
  destruct Hb as [Hb|Hb]; rewrite Hb; cbn; destruct Ha as [Ha|Ha]; rewrite Ha; cbn;
    eexists; (split; [reflexivity|]); cbn;
    repeat split; first [ apply CInt.wrap_congr; lia | apply CInt.to_int64_range
                        | apply CInt.to_int32_range ].
Qed.

Example make_lot_wraps_witness :
  make_lot (JObject [("itemId", JString "u2"); ("buyoutPrice", JUInt (2 ^ 63 + 7));
                     ("amount", JUInt (2 ^ 32 + 5))]) "t"
  = inr (mkLot "u2" (- 2 ^ 63 + 7) 5 "t") /\
  exists l, make_lot (JObject [("itemId", JString "u2"); ("buyoutPrice", JUInt (2 ^ 63 + 7));
                               ("amount", JUInt (2 ^ 32 + 5))]) "t" = inr l /\
    (buyoutPrice l - (2 ^ 63 + 7)) mod 2 ^ 64 = 0 /\ CInt.INT64_MIN <= buyoutPrice l <= CInt.INT64_MAX /\
    (amount l - (2 ^ 32 + 5)) mod 2 ^ 32 = 0 /\ CInt.INT32_MIN <= amount l <= CInt.INT32_MAX.
Proof.
  split; [reflexivity|].
  apply (make_lot_wraps _ "t" "u2"); [reflexivity | right; reflexivity | right; reflexivity].
Defined.

End Lot.
