(* ===== verification/Http.v ===== *)
(** * The HTTP exchange of [fetchLots]

    [lots_request] is the request built on lines 48-50: the URL joins the
    base, region, item id, [std::to_string(offset)] and
    [std::to_string(limit)], and the header is a bearer token.  A
    [response] is what [cpr::Get] returns: [status_code] and [text].  The
    text is given by what [json::parse] makes of it.  A transport failure is
    a response whose status code is 0 and so is not 200.

    The fetcher is proved against the [PagedEndpoint] interface.  For the
    requests the fetcher sends, such an endpoint answers 200 with the page
    [firstn limit (skipn offset all)] of a fixed list of lots.  [stub_endpoint]
    is a concrete endpoint that parses the URL back into offset and limit.  The
    round trip [decode_lots_url] shows that the stub meets the interface. *)

From stdpp Require Import base list strings.
From Stdlib Require Import ZArith Lia Ascii DecimalString DecimalZ DecimalPos.
From S2P Require Import Prelude CInt Json.
Import Json.

Open Scope Z_scope.

Module Http.

(** [std::to_string(int)] *)
Definition to_string (z : Z) : string := NilZero.string_of_int (Z.to_int z).

Definition base_url : string := "https://eapi.stalcraft.net/".

(** Line 48-49. *)
Definition lots_url (region itemId : string) (offset limit : Z) : string :=
  (base_url ++ region ++ "/auction/" ++ itemId ++ "/lots?offset=" ++
   to_string offset ++ "&limit=" ++ to_string limit)%string.

Record request := mkRequest {
  url : string;
  header : list (string * string)
}.

(** Line 50: [cpr::Get(cpr::Url{url}, cpr::Header{{"Authorization", "Bearer " + apiKey}})] *)
Definition lots_request (region itemId apiKey : string) (offset limit : Z) : request :=
  mkRequest (lots_url region itemId offset limit)
            [("Authorization", "Bearer " ++ apiKey)%string].

(** The text of a response, as [json::parse] sees it. *)
Inductive body :=
  | Parsed (j : json)
  | Unparsable.

Record response := mkResponse {
  status_code : Z;
  text : body
}.

(** ** The paged-endpoint interface *)

(** The body of a page: [{"lots": [...]}]. *)
Definition page_body (all : list json) (offset limit : Z) : json :=
  JObject [("lots", JArray (take (Z.to_nat limit) (drop (Z.to_nat offset) all)))].

Definition page_response (all : list json) (offset limit : Z) : response :=
  mkResponse 200 (Parsed (page_body all offset limit)).

(** An endpoint that serves [all] in pages to the requests of this session. *)
Class PagedEndpoint (get : request -> response) (region itemId apiKey : string)
      (all : list json) : Prop :=
  paged_get : forall offset limit, 0 <= offset -> 0 <= limit ->
    get (lots_request region itemId apiKey offset limit) = page_response all offset limit.

(** ** A stub endpoint that reads its URL *)

Fixpoint strip_prefix (p s : string) : option string :=
  match p, s with
  | EmptyString, _ => Some s
  | String a p', String b s' => if Ascii.eqb a b then strip_prefix p' s' else None
  | String _ _, EmptyString => None
  end.

(** Splits at the first occurrence of [c], dropping it. *)
Fixpoint split_at (c : ascii) (s : string) : string * option string :=
  match s with
  | EmptyString => (EmptyString, None)
  | String a s' =>
      if Ascii.eqb a c then (EmptyString, Some s')
      else let '(l, r) := split_at c s' in (String a l, r)
  end.

Definition parse_int (s : string) : option Z :=
  option_map Z.of_int (NilZero.int_of_string s).

(** Reads offset and limit back from a URL of this region and item. *)
Definition decode_lots_url (region itemId u : string) : option (Z * Z) :=
  match strip_prefix (base_url ++ region ++ "/auction/" ++ itemId ++ "/lots?offset=")%string u with
  | None => None
  | Some rest =>
      match split_at "&" rest with
      | (o, Some rest') =>
          match strip_prefix "limit=" rest', parse_int o with
          | Some l, Some offset =>
              match parse_int l with
              | Some limit => Some (offset, limit)
              | None => None
              end
          | _, _ => None
          end
      | (_, None) => None
      end
  end.

(** Answers [serve offset limit] to a well-formed, authorized request; 401
    without the token; 404 for another URL. *)
Definition stub_endpoint (region itemId apiKey : string) (serve : Z -> Z -> response)
    (r : request) : response :=
  if bool_decide (header r = [("Authorization", "Bearer " ++ apiKey)%string]) then
    match decode_lots_url region itemId (url r) with
    | Some (o, l) => serve o l
    | None => mkResponse 404 Unparsable
    end
  else mkResponse 401 Unparsable.

(** ** Lemmas *)

Lemma strip_prefix_app p s : strip_prefix p (p ++ s)%string = Some s.
Proof. induction p; simpl; [done|]. by rewrite Ascii.eqb_refl. Qed.

Lemma split_at_to_string z rest :
  split_at "&" (to_string z ++ "&" ++ rest)%string = (to_string z, Some rest).
Proof.
  assert (Hu : forall d, split_at "&" (NilEmpty.string_of_uint d ++ "&" ++ rest)%string
                         = (NilEmpty.string_of_uint d, Some rest)).
  { induction d; simpl; try rewrite IHd; reflexivity. }
  unfold to_string, NilZero.string_of_int, NilZero.string_of_uint.
  destruct (Z.to_int z) as [d|d]; [|simpl; rewrite ?Hu];
    destruct d; simpl; try rewrite Hu; reflexivity.
Qed.

Lemma to_int_nonnil z : Z.to_int z <> Decimal.Pos Decimal.Nil /\ Z.to_int z <> Decimal.Neg Decimal.Nil.
Proof.
  destruct z; simpl; split; try discriminate;
    intros [= H]; by apply (Unsigned.to_uint_nonnil p).
Qed.

Lemma parse_int_to_string z : parse_int (to_string z) = Some z.
Proof.
  unfold parse_int, to_string. destruct (to_int_nonnil z).
  rewrite NilZero.isi by done. simpl. by rewrite DecimalZ.of_to.
Qed.

Lemma string_app_assoc (a b c : string) : (a ++ b ++ c)%string = ((a ++ b) ++ c)%string.
Proof.
  induction a as [|x a IH]; [reflexivity|].
  change (String x (a ++ b ++ c) = String x ((a ++ b) ++ c))%string. by rewrite IH.
Qed.

(** ** Properties *)

(** Decoding a page URL. *)
Lemma lots_url_decodes (region itemId : string) (offset limit : Z) :
  decode_lots_url region itemId (lots_url region itemId offset limit) = Some (offset, limit).
Proof.
  assert (Hu : lots_url region itemId offset limit =
    ((base_url ++ region ++ "/auction/" ++ itemId ++ "/lots?offset=") ++
     (to_string offset ++ "&limit=" ++ to_string limit))%string)
    by (unfold lots_url; rewrite !string_app_assoc; reflexivity).
  unfold decode_lots_url. rewrite Hu, strip_prefix_app.
  change ("&limit=" ++ to_string limit)%string with ("&" ++ ("limit=" ++ to_string limit))%string.
  rewrite split_at_to_string, strip_prefix_app.
  by rewrite !parse_int_to_string.
Qed.

(** C6: the URL of a page request encodes its offset and limit faithfully:
    reading the URL back gives exactly the offset and limit it was built
    from, for every [int] value, negative ones included. *)
Theorem decode_lots_url_roundtrip (region itemId : string) (offset limit : Z) :
  decode_lots_url region itemId (lots_url region itemId offset limit) = Some (offset, limit).
Proof. apply lots_url_decodes. Qed.

Lemma stub_endpoint_get region itemId apiKey serve offset limit :
  stub_endpoint region itemId apiKey serve (lots_request region itemId apiKey offset limit)
  = serve offset limit.
Proof.
  unfold stub_endpoint. rewrite bool_decide_eq_true_2 by done.
  simpl. by rewrite lots_url_decodes.
Qed.

Lemma stub_paged region itemId apiKey all :
  PagedEndpoint (stub_endpoint region itemId apiKey (page_response all)) region itemId apiKey all.
Proof. intros o l _ _. apply stub_endpoint_get. Qed.

#[export] Existing Instance stub_paged.

End Http.
