(* ===== verification/Fetcher.v ===== *)
(** * [fetchLots]: one paginated fetch cycle

    The session holds the two globals of [src/main.cpp]: [lots] (the
    [std::vector<LotData>] shown in the table) and [knownStartTimes] (the
    [std::set<std::string>] of start times seen so far, as a [gset]).
    [process_lot] is one iteration of the range-for of lines 57-68;
    [fetch_page] is one iteration of the [while (true)] of lines 47-72, up
    to the [offset += limit] that precedes the next one; [fetch_loop] is the
    loop on fuel, logging the requests it sends; [fetchLots] clears [lots]
    and runs the loop from offset 0.  Everything is parametric in the
    endpoint [get] and the three configuration strings (a [Section]). *)

From stdpp Require Import base list gmap strings.
From Stdlib Require Import ZArith Lia.
From S2P Require Import Prelude CInt Json Lot Http.
Import Json Lot Http.

Open Scope Z_scope.

Module Fetcher.

Local Set Warnings "-clear-no-such-hyp".

Record session := mkSession {
  lots : list LotData;
  knownStartTimes : gset string
}.

(** Line 44: [const int limit = 100;] *)
Definition limit : Z := 100.

(** Lines 58-67: read the start time; skip a known one; otherwise build the
    lot, append it, and remember its start time. *)
Definition process_lot (s : session) (lot : json) : exn session :=
  let* st := read_startTime lot in
  if bool_decide (st ∈ knownStartTimes s) then exn_ret s
  else
    let* l := make_lot lot st in
    exn_ret (mkSession (lots s ++ [l]) ({[st]} ∪ knownStartTimes s)).

(** Line 57: the range-for over the page, stopping at the first exception. *)
Fixpoint process_lots (s : session) (page : list json) : exn session :=
  match page with
  | [] => exn_ret s
  | lot :: rest =>
      let* s' := process_lot s lot in
      process_lots s' rest
  end.

(** How one iteration of the [while (true)] ends: a [break] with the session,
    or a next offset. *)
Inductive step_result :=
  | Stop (s : session)
  | Continue (s : session) (next_offset : Z).

Section Cycle.

Context (get : request -> response) (region itemId apiKey : string).

Definition page_request (offset : Z) : request :=
  lots_request region itemId apiKey offset limit.

(** Lines 48-71. *)
Definition fetch_page (offset : Z) (s : session) : exn step_result :=
  let r := get (page_request offset) in
  if negb (status_code r =? 200) then exn_ret (Stop s)            (* line 51 *)
  else
    match text r with
    | Unparsable => throw ParseError                                (* line 53 *)
    | Parsed result =>
        if negb (contains result "lots") then exn_ret (Stop s)     (* line 54 *)
        else
          let* '(result, v) := at_mut result "lots" in
          if negb (is_array v) then exn_ret (Stop s)
          else
            let* '(result, v) := at_mut result "lots" in           (* line 56 *)
            let count := Json.size v in
            let* '(_, v) := at_mut result "lots" in                (* line 57 *)
            let* s := process_lots s (items v) in
            if Z.of_nat count <? limit then exn_ret (Stop s)        (* line 70 *)
            else if CInt.INT32_MAX <? offset + limit                (* line 71 *)
            then throw (UndefinedBehavior "signed overflow in offset += limit")
            else exn_ret (Continue s (offset + limit))
    end.

(** The reference for [fetch_page]: one lookup of [lots] in the parsed
    object instead of the three non-const [operator[]] calls of lines 54-57,
    and the count taken from the array it finds. *)
Definition fetch_page_ref (offset : Z) (s : session) : exn step_result :=
  let r := get (page_request offset) in
  if negb (status_code r =? 200) then exn_ret (Stop s)
  else
    match text r with
    | Unparsable => throw ParseError
    | Parsed (JObject fs) =>
        match assoc fs "lots" with
        | Some (JArray page) =>
            let* s := process_lots s page in
            if Z.of_nat (length page) <? limit then exn_ret (Stop s)
            else if CInt.INT32_MAX <? offset + limit
            then throw (UndefinedBehavior "signed overflow in offset += limit")
            else exn_ret (Continue s (offset + limit))
        | _ => exn_ret (Stop s)
        end
    | Parsed _ => exn_ret (Stop s)
    end.

(** The [while (true)] loop, on fuel, with the requests sent so far. *)
Fixpoint fetch_loop (fuel : nat) (offset : Z) (s : session) (sent : list request)
    : outcome (session * list request) :=
  match fuel with
  | O => OutOfFuel
  | S fuel =>
      let sent := sent ++ [page_request offset] in
      match fetch_page offset s with
      | inl f => Crashed f
      | inr (Stop s) => Done (s, sent)
      | inr (Continue s offset) => fetch_loop fuel offset s sent
      end
  end.

(** Lines 42-73: [lots.clear()], then the loop from offset 0. *)
Definition fetchLots (fuel : nat) (s : session) : outcome (session * list request) :=
  fetch_loop fuel 0 (mkSession [] (knownStartTimes s)) [].

End Cycle.

(** A request the program may send: a page of this region, item and key,
    at an offset of [int] range that is a multiple of [limit]. *)
Definition page_request_ok (region itemId apiKey : string) (r : request) : Prop :=
  exists o, r = page_request region itemId apiKey o /\
            0 <= o <= CInt.INT32_MAX /\ o mod limit = 0.

(** ** The invariant of a session and the reference deduplication *)

(** The start times of the shown lots are distinct and all known. *)
Definition session_wf (s : session) : Prop :=
  NoDup (map startTime (lots s)) /\ Forall (fun l => startTime l ∈ knownStartTimes s) (lots s).

Definition keys (ls : list LotData) : gset string := list_to_set (map startTime ls).

(** The lots of [ls] a cycle keeps, in arrival order, when [known] start times
    were seen before: the specification of the dedup (spec, section 4.1). *)
Fixpoint dedup (known : gset string) (ls : list LotData) : list LotData :=
  match ls with
  | [] => []
  | l :: rest =>
      if bool_decide (startTime l ∈ known) then dedup known rest
      else l :: dedup ({[startTime l]} ∪ known) rest
  end.

Definition step_session (r : step_result) : session :=
  match r with Stop s => s | Continue s _ => s end.

(** What the endpoint does at [offset] in the theorems: it serves the page
    of [all], or it fails (status other than 200) past the end of [all]. *)
Definition serves (get : request -> response) (region itemId apiKey : string)
    (all : list LotData) (offset : Z) : Prop :=
  get (page_request region itemId apiKey offset) = page_response (map lot_json all) offset limit \/
  ((length all <= Z.to_nat offset)%nat /\
   status_code (get (page_request region itemId apiKey offset)) <> 200).

(** The step a served page produces: [dedup] of the page appended, then the
    test on the page size and on the next offset. *)
Definition expected_step (all : list LotData) (offset : Z) (s : session) : exn step_result :=
  let page := take (Z.to_nat limit) (drop (Z.to_nat offset) all) in
  let s' := mkSession (lots s ++ dedup (knownStartTimes s) page) (keys page ∪ knownStartTimes s) in
  if Z.of_nat (length page) <? limit then inr (Stop s')
  else if CInt.INT32_MAX <? offset + limit
  then throw (UndefinedBehavior "signed overflow in offset += limit")
  else inr (Continue s' (offset + limit)).


Definition full_page_response (page : list LotData) : response :=
  mkResponse 200 (Parsed (JObject [("lots", JArray (map lot_json page))])).

(** ** Fixtures for the witnesses

    Concrete lots and endpoints on which the theorems are applied. *)

Definition test_lot (i : nat) : LotData :=
  mkLot "y1q9" (1000 + Z.of_nat i) 1 ("2026-11-09T10:00:" ++ to_string (Z.of_nat i))%string.

Definition test_lots (n : nat) : list LotData := map test_lot (seq 0 n).

Definition test_endpoint (all : list LotData) : request -> response :=
  stub_endpoint "ru" "y1q9" "KEY" (page_response (map lot_json all)).

(** Serves the pages of [all] below offset [cut] and answers 500 from [cut] on. *)
Definition failing_endpoint (all : list LotData) (cut : Z) : request -> response :=
  stub_endpoint "ru" "y1q9" "KEY"
    (fun o l => if o <? cut then page_response (map lot_json all) o l else mkResponse 500 Unparsable).

Definition empty_session : session := mkSession [] ∅.

(** A body that does not parse, a body without [lots], a page whose third
    lot has no [startTime], and a full page whatever the offset. *)
Definition unparsable_endpoint (r : request) : response := mkResponse 200 Unparsable.

Definition error_body_endpoint (r : request) : response :=
  mkResponse 200 (Parsed (JObject [("error", JString "rate limited")])).

Definition broken_lot_endpoint (r : request) : response :=
  mkResponse 200 (Parsed (JObject [("lots", JArray (map lot_json (test_lots 2) ++
                                                  JObject [("itemId", JString "y1q9")] :: []))])).

Definition constant_full_endpoint (r : request) : response := full_page_response (test_lots 100).

(** Side conditions of the witnesses: instances, range checks by
    computation, and lengths of the fixtures. *)
Local Ltac witness_side :=
  first [ exact (stub_paged _ _ _ _)
        | apply (bool_decide_unpack _); vm_compute; reflexivity
        | unfold test_lots; rewrite ?length_map, ?length_seq; unfold CInt.INT32_MAX;
          first [ lia | apply Nat.ltb_lt; reflexivity ] ].

(** *** Lemmas on [dedup] and [keys] *)

Lemma keys_app xs ys : keys (xs ++ ys) = keys xs ∪ keys ys.
Proof. unfold keys. by rewrite map_app, list_to_set_app_L. Qed.

Lemma keys_cons l ls : keys (l :: ls) = {[startTime l]} ∪ keys ls.
Proof. reflexivity. Qed.

Lemma dedup_app K xs ys : dedup K (xs ++ ys) = dedup K xs ++ dedup (keys xs ∪ K) ys.
Proof.
  revert K. induction xs as [|x xs IH]; intros K; simpl.
  - f_equal. set_solver.
  - rewrite keys_cons. case_bool_decide.
    + rewrite IH. do 2 f_equal. set_solver.
    + simpl. rewrite IH. do 3 f_equal. set_solver.
Qed.

Lemma dedup_known K ls : keys ls ⊆ K -> dedup K ls = [].
Proof.
  revert K. induction ls as [|l ls IH]; intros K Hk; simpl; [done|].
  rewrite keys_cons in Hk. rewrite bool_decide_eq_true_2 by set_solver.
  apply IH. set_solver.
Qed.

Lemma dedup_fresh K ls : keys ls ## K -> NoDup (map startTime ls) -> dedup K ls = ls.
Proof.
  revert K. induction ls as [|l ls IH]; intros K Hk Hnd; simpl; [done|].
  rewrite keys_cons in Hk. apply NoDup_cons in Hnd as [Hl Hnd].
  rewrite bool_decide_eq_false_2 by set_solver. f_equal. apply IH; [|done].
  unfold keys in *. intros x Hx1 Hx2.
  apply elem_of_list_to_set in Hx1.
  apply elem_of_union in Hx2 as [Hx2|Hx2]; [apply elem_of_singleton in Hx2; subst|]; set_solver.
Qed.

Lemma dedup_take_drop n K ls :
  dedup K ls = dedup K (take n ls) ++ dedup (keys (take n ls) ∪ K) (drop n ls).
Proof. by rewrite <- dedup_app, take_drop. Qed.

Lemma keys_take_drop n ls : keys ls = keys (take n ls) ∪ keys (drop n ls).
Proof. by rewrite <- keys_app, take_drop. Qed.

(** *** The invariant is preserved *)

Lemma process_lot_wf s j s' :
  session_wf s -> process_lot s j = inr s' ->
  session_wf s' /\ knownStartTimes s ⊆ knownStartTimes s'.
Proof.
  intros [Hnd Hall] H. unfold process_lot in H. exn_inv.
  case_bool_decide; exn_inv; [done|].
  apply make_lot_startTime in Ha0 as Hst. simpl. split; [|set_solver]. split.
  - apply NoDup_map_snoc; [done|]. rewrite Hst. intros Hin.
    apply list_elem_of_In, in_map_iff in Hin as (l & Hl & Hin).
    rewrite Forall_forall in Hall. apply H0. rewrite <- Hl. apply Hall. by apply list_elem_of_In.
  - apply Forall_app. split; [|constructor; [rewrite Hst; set_solver|done]].
    eapply Forall_impl; [exact Hall|]. set_solver.
Qed.

Lemma process_lots_wf s page s' :
  session_wf s -> process_lots s page = inr s' ->
  session_wf s' /\ knownStartTimes s ⊆ knownStartTimes s'.
Proof.
  revert s. induction page as [|j page IH]; intros s Hwf H; simpl in H; exn_inv; [done|].
  destruct (process_lot_wf _ _ _ Hwf Ha) as [Hwf1 Hsub1].
  destruct (IH _ Hwf1 H) as [Hwf2 Hsub2]. split; [done|set_solver].
Qed.

Section CycleFacts.

Context (get : request -> response) (region itemId apiKey : string).

Lemma fetch_page_wf offset s r :
  session_wf s -> fetch_page get region itemId apiKey offset s = inr r ->
  session_wf (step_session r) /\ knownStartTimes s ⊆ knownStartTimes (step_session r).
Proof.
  intros Hwf H. unfold fetch_page in H. exn_split; simpl; try done;
    eapply process_lots_wf; eauto.
Qed.

Lemma fetch_loop_wf fuel offset s sent s' sent' :
  session_wf s -> fetch_loop get region itemId apiKey fuel offset s sent = Done (s', sent') ->
  session_wf s' /\ knownStartTimes s ⊆ knownStartTimes s'.
Proof.
  revert offset s sent. induction fuel as [|fuel IH]; intros offset s sent Hwf H;
    simpl in H; [discriminate|].
  destruct (fetch_page _ _ _ _ offset s) as [f|r] eqn:Hp; [discriminate|].
  destruct (fetch_page_wf _ _ _ Hwf Hp) as [Hwf1 Hsub1].
  destruct r as [s1|s1 o1]; simpl in *.
  - injection H as <- <-. done.
  - destruct (IH _ _ _ Hwf1 H) as [Hwf2 Hsub2]. split; [done|set_solver].
Qed.

(** C2: after every completed cycle, whatever the endpoint answers, the shown
    lots have pairwise distinct start times, all of them known, and no start
    time known before the cycle is forgotten. *)
Theorem fetchLots_wf fuel s s' sent :
  fetchLots get region itemId apiKey fuel s = Done (s', sent) ->
  session_wf s' /\ knownStartTimes s ⊆ knownStartTimes s'.
Proof.
  intros H. apply fetch_loop_wf in H; [done|].
  split; simpl; constructor.
Qed.


End CycleFacts.

Lemma fetchLots_wf_witness :
  exists s' sent,
    fetchLots (failing_endpoint (test_lots 3) 0) "ru" "y1q9" "KEY" 1 empty_session = Done (s', sent) /\
    session_wf s' /\ knownStartTimes empty_session ⊆ knownStartTimes s'.
Proof.
  name_run (fetchLots (failing_endpoint (test_lots 3) 0) "ru" "y1q9" "KEY" 1 empty_session) r E.
  destruct r as [[s' sent]| |]; [| refute_by_compute E ..].
  exists s', sent. split; [exact E|]. exact (fetchLots_wf _ _ _ _ _ _ _ _ E).
Defined.

(** *** Served pages *)

Lemma session_eta s : mkSession (lots s ++ dedup (knownStartTimes s) []) (keys [] ∪ knownStartTimes s) = s.
Proof. destruct s as [ls K]. simpl. rewrite app_nil_r. f_equal. set_solver. Qed.

Lemma process_lot_json s l :
  lot_in_range l ->
  process_lot s (lot_json l) =
    inr (if bool_decide (startTime l ∈ knownStartTimes s) then s
         else mkSession (lots s ++ [l]) ({[startTime l]} ∪ knownStartTimes s)).
Proof.
  intros Hl. destruct (lot_json_decodes l Hl) as [Hst Hmk].
  unfold process_lot. rewrite Hst. simpl. case_bool_decide; [done|]. by rewrite Hmk.
Qed.

(** The range-for over a page of encoded lots appends exactly [dedup]. *)
Lemma process_lots_json s ls :
  Forall lot_in_range ls ->
  process_lots s (map lot_json ls) =
    inr (mkSession (lots s ++ dedup (knownStartTimes s) ls) (keys ls ∪ knownStartTimes s)).
Proof.
  revert s. induction ls as [|l ls IH]; intros s Hr; simpl.
  - by rewrite session_eta.
  - apply Forall_cons in Hr as [Hl Hr]. rewrite process_lot_json by done. simpl.
    rewrite IH by done. rewrite keys_cons. case_bool_decide; simpl.
    + do 2 f_equal. set_solver.
    + rewrite <- app_assoc. do 2 f_equal. set_solver.
Qed.

Lemma take_drop_map (n m : nat) (all : list LotData) :
  take n (drop m (map lot_json all)) = map lot_json (take n (drop m all)).
Proof. by rewrite skipn_map, firstn_map. Qed.

Lemma fetch_page_served get region itemId apiKey all offset s :
  Forall lot_in_range all -> serves get region itemId apiKey all offset ->
  fetch_page get region itemId apiKey offset s = expected_step all offset s.
Proof.
  intros Hr [Hget | [Hend Hst]]; unfold fetch_page, expected_step.
  - rewrite Hget. simpl. rewrite !take_drop_map, process_lots_json, length_map; [reflexivity|].
    apply Forall_take, Forall_drop, Hr.
  - rewrite (proj2 (Z.eqb_neq _ _) Hst). simpl.
    rewrite drop_ge by done. simpl. by rewrite session_eta.
Qed.

Lemma fetch_loop_S get region itemId apiKey fuel offset s sent :
  fetch_loop get region itemId apiKey (S fuel) offset s sent =
  match fetch_page get region itemId apiKey offset s with
  | inl f => Crashed f
  | inr (Stop s) => Done (s, sent ++ [page_request region itemId apiKey offset])
  | inr (Continue s offset') =>
      fetch_loop get region itemId apiKey fuel offset' s
        (sent ++ [page_request region itemId apiKey offset])
  end.
Proof. reflexivity. Qed.

Lemma div100_step (x : nat) : (100 <= x)%nat -> (x / 100 = (x - 100) / 100 + 1)%nat.
Proof.
  intros Hx. replace x with ((x - 100) + 1 * 100)%nat at 1 by lia.
  rewrite Nat.div_add by lia. lia.
Qed.

Section Loop.

Context (get : request -> response) (region itemId apiKey : string) (all : list LotData).
Hypothesis Hrange : Forall lot_in_range all.
Hypothesis Hmax : Z.of_nat (length all) <= CInt.INT32_MAX.

(** From page [k] on, the loop appends [dedup] of the rest of [all] and sends
    one request per remaining page, the last one short. *)
Lemma fetch_loop_served fuel k acc K sent :
  (forall j, (k <= j)%nat -> (100 * j <= length all)%nat ->
     serves get region itemId apiKey all (Z.of_nat (100 * j))) ->
  (100 * k <= length all)%nat ->
  ((length all - 100 * k) / 100 < fuel)%nat ->
  fetch_loop get region itemId apiKey fuel (Z.of_nat (100 * k)) (mkSession acc K) sent =
  Done (mkSession (acc ++ dedup K (drop (100 * k) all)) (keys (drop (100 * k) all) ∪ K),
        sent ++ map (fun j => page_request region itemId apiKey (Z.of_nat (100 * j)))
                    (seq k ((length all - 100 * k) / 100 + 1))).
Proof.
  revert k acc K sent. induction fuel as [|fuel IH]; intros k acc K sent Hserve Hk Hfuel; [lia|].
  rewrite fetch_loop_S, (fetch_page_served _ _ _ _ all) by (auto; apply Hserve; lia).
  unfold expected_step. cbn [lots knownStartTimes]. rewrite Nat2Z.id.
  assert (Hlen : length (drop (100 * k) all) = (length all - 100 * k)%nat) by apply length_drop.
  rewrite length_take, Hlen. unfold limit in *. change (Z.to_nat 100) with 100%nat.
  destruct (Z.ltb_spec (Z.of_nat (Nat.min 100 (length all - 100 * k))) 100).
  - rewrite take_ge by lia.
    rewrite (Nat.div_small (length all - 100 * k) 100) by lia. reflexivity.
  - rewrite (proj2 (Z.ltb_ge _ _)) by (unfold CInt.INT32_MAX in *; lia).
    replace (Z.of_nat (100 * k) + 100) with (Z.of_nat (100 * S k)) by lia.
    rewrite (div100_step (length all - 100 * k)) in * by lia.
    assert (Hf : ((length all - 100 * S k) / 100 < fuel)%nat)
      by (replace (length all - 100 * S k)%nat with (length all - 100 * k - 100)%nat by lia; lia).
    rewrite IH by (intros; try apply Hserve; lia).
    rewrite (dedup_take_drop 100 K (drop (100 * k) all)), (keys_take_drop 100 (drop (100 * k) all)).
    rewrite drop_drop.
    replace (100 * k + 100)%nat with (100 * S k)%nat by lia.
    replace (length all - 100 * S k)%nat with (length all - 100 * k - 100)%nat by lia.
    rewrite Nat.add_1_r at 2. simpl seq. rewrite <- !app_assoc.
    do 3 f_equal. set_solver.
Qed.

End Loop.

Lemma take_drop_take (n m p : nat) (l : list LotData) :
  (m + n <= p)%nat -> take n (drop m (take p l)) = take n (drop m l).
Proof.
  intros H. rewrite !take_drop_commute, take_take.
  by replace (Nat.min (m + n) p) with (m + n)%nat by lia.
Qed.

Lemma serves_paged get region itemId apiKey all offset
  `{!PagedEndpoint get region itemId apiKey (map lot_json all)} :
  0 <= offset -> serves get region itemId apiKey all offset.
Proof. intros Ho. left. apply paged_get; [done|unfold limit; lia]. Qed.

(** A cycle against a paged endpoint, with enough fuel. *)
Lemma fetchLots_served get region itemId apiKey all fuel s
  `{!PagedEndpoint get region itemId apiKey (map lot_json all)} :
  Forall lot_in_range all ->
  Z.of_nat (length all) <= CInt.INT32_MAX ->
  (length all / 100 < fuel)%nat ->
  fetchLots get region itemId apiKey fuel s =
  Done (mkSession (dedup (knownStartTimes s) all) (keys all ∪ knownStartTimes s),
        map (fun j => page_request region itemId apiKey (Z.of_nat (100 * j)))
            (seq 0 (length all / 100 + 1))).
Proof.
  intros Hr Hmax Hfuel. unfold fetchLots.
  change 0 with (Z.of_nat (100 * 0)).
  rewrite (fetch_loop_served get region itemId apiKey all Hr Hmax).
  - by rewrite Nat.mul_0_r, drop_0, Nat.sub_0_r.
  - intros j _ _. apply serves_paged; [assumption | lia].
  - lia.
  - by rewrite Nat.mul_0_r, Nat.sub_0_r.
Qed.

(** C1: against an endpoint that serves a fixed list [all] of lots in pages,
    a cycle with enough fuel terminates and refines the specification: it
    shows exactly [dedup] of [all] against the start times known before,
    remembers every start time of [all], and sends one request per page at
    offsets 0, 100, 200, ..., the last page being the first short one. *)
Theorem fetchLots_paged get region itemId apiKey all fuel s
  `{!PagedEndpoint get region itemId apiKey (map lot_json all)} :
  Forall lot_in_range all ->
  Z.of_nat (length all) <= CInt.INT32_MAX ->
  (length all / 100 < fuel)%nat ->
  fetchLots get region itemId apiKey fuel s =
  Done (mkSession (dedup (knownStartTimes s) all) (keys all ∪ knownStartTimes s),
        map (fun j => page_request region itemId apiKey (Z.of_nat (100 * j)))
            (seq 0 (length all / 100 + 1))).
Proof. intros Hr Hmax Hfuel. by apply fetchLots_served. Qed.

Lemma fetchLots_paged_witness :
  exists s' sent,
    fetchLots (test_endpoint (test_lots 250)) "ru" "y1q9" "KEY" 3 empty_session = Done (s', sent) /\
    length (lots s') = 250%nat /\ NoDup (map startTime (lots s')) /\ length sent = 3%nat.
Proof.
  eexists _, _. split.
  { apply (fetchLots_paged _ _ _ _ (test_lots 250)); witness_side. }
  split; [vm_compute; reflexivity|]. split; [|vm_compute; reflexivity].
  apply (bool_decide_unpack _). vm_compute. reflexivity.
Defined.

(** C5: a failing page ends the cycle quietly: when the first [c] pages are
    full pages of [all] and the endpoint answers page [c] with a status
    other than 200, the cycle shows [dedup] of the first [100 * c] lots and
    stops, with no crash and no further request. *)
Theorem fetchLots_bad_status get region itemId apiKey all c fuel s :
  Forall lot_in_range all ->
  (100 * c <= length all)%nat ->
  Z.of_nat (100 * c) <= CInt.INT32_MAX ->
  (forall j, (j < c)%nat ->
     get (page_request region itemId apiKey (Z.of_nat (100 * j)))
     = page_response (map lot_json all) (Z.of_nat (100 * j)) limit) ->
  status_code (get (page_request region itemId apiKey (Z.of_nat (100 * c)))) <> 200 ->
  (c < fuel)%nat ->
  fetchLots get region itemId apiKey fuel s =
  Done (mkSession (dedup (knownStartTimes s) (take (100 * c) all))
                  (keys (take (100 * c) all) ∪ knownStartTimes s),
        map (fun j => page_request region itemId apiKey (Z.of_nat (100 * j))) (seq 0 (c + 1))).
Proof.
  intros Hr Hc Hmax Hpages Hfail Hfuel.
  assert (Hlen : length (take (100 * c) all) = (100 * c)%nat) by (rewrite length_take; lia).
  assert (Hdiv : ((100 * c) / 100 = c)%nat) by (rewrite Nat.mul_comm; apply Nat.div_mul; lia).
  unfold fetchLots. change 0 with (Z.of_nat (100 * 0)).
  rewrite (fetch_loop_served get region itemId apiKey (take (100 * c) all)).
  - by rewrite Nat.mul_0_r, drop_0, Nat.sub_0_r, Hlen, Hdiv.
  - by apply Forall_take.
  - rewrite Hlen. lia.
  - intros j _ Hj. rewrite Hlen in Hj. destruct (decide (j < c)%nat) as [Hlt|Hge].
    + left. rewrite Hpages by done. unfold page_response, page_body. rewrite !take_drop_map.
      rewrite take_drop_take; [done|]. unfold limit. lia.
    + right. replace j with c by lia. rewrite Hlen, Nat2Z.id. done.
  - lia.
  - by rewrite Nat.mul_0_r, Nat.sub_0_r, Hlen, Hdiv.
Qed.

Lemma fetchLots_bad_status_witness :
  exists s' sent,
    fetchLots (failing_endpoint (test_lots 250) 100) "ru" "y1q9" "KEY" 3 empty_session = Done (s', sent) /\
    length (lots s') = 100%nat /\ length sent = 2%nat.
Proof.
  eexists _, _. split.
  { apply (fetchLots_bad_status _ _ _ _ (test_lots 250) 1); try witness_side.
    intros j Hj. replace j with 0%nat by lia. vm_compute. reflexivity. }
  split; vm_compute; reflexivity.
Defined.

(** C4: deduplication is idempotent (spec, section 8): fetching the same
    server-side lots twice in a row shows nothing the second time and learns
    no new start time; the second cycle still requests every page, since
    the stop test counts the lots of a page, not the new ones. *)
Theorem fetchLots_idempotent get region itemId apiKey all fuel s s1 s2 sent1 sent2
  `{!PagedEndpoint get region itemId apiKey (map lot_json all)} :
  Forall lot_in_range all ->
  Z.of_nat (length all) <= CInt.INT32_MAX ->
  (length all / 100 < fuel)%nat ->
  fetchLots get region itemId apiKey fuel s = Done (s1, sent1) ->
  fetchLots get region itemId apiKey fuel s1 = Done (s2, sent2) ->
  lots s1 = dedup (knownStartTimes s) all /\ lots s2 = [] /\
  knownStartTimes s2 = knownStartTimes s1 /\ sent2 = sent1.
Proof.
  intros Hr Hmax Hfuel H1 H2.
  rewrite (fetchLots_served get region itemId apiKey all) in H1, H2 by done.
  injection H1 as <- <-. injection H2 as <- <-. simpl.
  split; [done|]. split; [|split; [set_solver | done]].
  apply dedup_known. set_solver.
Qed.

Lemma fetchLots_idempotent_witness :
  exists s1 sent1 s2 sent2,
    fetchLots (test_endpoint (test_lots 3)) "ru" "y1q9" "KEY" 1 empty_session = Done (s1, sent1) /\
    fetchLots (test_endpoint (test_lots 3)) "ru" "y1q9" "KEY" 1 s1 = Done (s2, sent2) /\
    lots s1 = dedup ∅ (test_lots 3) /\ lots s2 = [] /\ knownStartTimes s2 = knownStartTimes s1 /\
    sent2 = sent1.
Proof.
  name_run (fetchLots (test_endpoint (test_lots 3)) "ru" "y1q9" "KEY" 1 empty_session) r1 E1.
  destruct r1 as [[s1 sent1]| |]; [| refute_by_compute E1 ..].
  pose proof E1 as E1'. vm_compute in E1'. injection E1' as Hs1 _.
  name_run (fetchLots (test_endpoint (test_lots 3)) "ru" "y1q9" "KEY" 1 s1) r2 E2.
  destruct r2 as [[s2 sent2]| |]; [| rewrite <- Hs1 in E2; refute_by_compute E2 ..].
  do 4 eexists. split; [exact E1|]. split; [exact E2|].
  refine (fetchLots_idempotent _ _ _ _ (test_lots 3) 1 empty_session s1 s2 sent1 sent2 _ _ _ E1 E2); witness_side.
Defined.


(** ** Error paths *)

Section Errors.

Context (get : request -> response) (region itemId apiKey : string).

Lemma process_lots_app s xs ys :
  process_lots s (xs ++ ys) = let* s' := process_lots s xs in process_lots s' ys.
Proof.
  revert s. induction xs as [|x xs IH]; intros s; simpl; [done|].
  destruct (process_lot s x); simpl; [done|]. apply IH.
Qed.

(** C7: an unparsable body is not a graceful stop: [json::parse] throws,
    nothing catches the exception, and the process ends, whatever page the
    cycle is at and whatever it accumulated. *)
Theorem fetch_loop_unparsable_crashes fuel offset s sent :
  status_code (get (page_request region itemId apiKey offset)) = 200 ->
  text (get (page_request region itemId apiKey offset)) = Unparsable ->
  fetch_loop get region itemId apiKey (S fuel) offset s sent = Crashed ParseError.
Proof.
  intros Hs Ht. rewrite fetch_loop_S. unfold fetch_page. cbv zeta.
  rewrite Hs, Ht. reflexivity.
Qed.

(** C8: a body that parses but has no [lots] array ends the cycle quietly,
    keeping what earlier pages gave. *)
Theorem fetch_loop_no_lots_stops fuel offset s sent result :
  get (page_request region itemId apiKey offset) = mkResponse 200 (Parsed result) ->
  (contains result "lots" = false \/
   exists v, at_const result "lots" = inr v /\ is_array v = false) ->
  fetch_loop get region itemId apiKey (S fuel) offset s sent
  = Done (s, sent ++ [page_request region itemId apiKey offset]).
Proof.
  intros Hget Hno. rewrite fetch_loop_S. unfold fetch_page. cbv zeta. rewrite Hget. simpl.
  destruct (contains result "lots") eqn:Hc; [|done].
  destruct Hno as [Hno | (v & Hv & Harr)]; [discriminate|].
  destruct (contains_at_mut result "lots" Hc) as (v' & Hm & Hv').
  rewrite Hv in Hv'. injection Hv' as <-. rewrite Hm. simpl. by rewrite Harr.
Qed.

(** C12: a lot without a [startTime] field is undefined behaviour (the const
    [operator[]] on a missing key), and it ends the cycle even after valid
    lots of the same page. *)
Theorem fetch_loop_missing_startTime fuel offset s sent ls fs rest :
  Forall lot_in_range ls ->
  assoc fs "startTime" = None ->
  get (page_request region itemId apiKey offset)
    = mkResponse 200 (Parsed (JObject [("lots", JArray (map lot_json ls ++ JObject fs :: rest))])) ->
  fetch_loop get region itemId apiKey (S fuel) offset s sent
  = Crashed (UndefinedBehavior "const operator[] on a missing key").
Proof.
  intros Hr Hfs Hget. rewrite fetch_loop_S. unfold fetch_page. cbv zeta. rewrite Hget. simpl.
  rewrite process_lots_app, process_lots_json by done. simpl.
  unfold process_lot, read_startTime. simpl. by rewrite Hfs.
Qed.

(** A known start time is skipped before any other field is read: a lot
    whose other fields are malformed is harmless once its start time is
    known. *)
Lemma process_lot_known s j st :
  read_startTime j = inr st -> st ∈ knownStartTimes s -> process_lot s j = inr s.
Proof. intros Hst Hk. unfold process_lot. rewrite Hst. simpl. by rewrite bool_decide_eq_true_2. Qed.

End Errors.

Lemma fetch_loop_unparsable_crashes_witness :
  fetch_loop unparsable_endpoint "ru" "y1q9" "KEY" 1 0 empty_session [] = Crashed ParseError.
Proof. apply fetch_loop_unparsable_crashes; reflexivity. Defined.

Lemma fetch_loop_no_lots_stops_witness :
  fetch_loop error_body_endpoint "ru" "y1q9" "KEY" 1 0 empty_session []
  = Done (empty_session, [] ++ [page_request "ru" "y1q9" "KEY" 0]).
Proof.
  apply (fetch_loop_no_lots_stops _ _ _ _ _ _ _ _ (JObject [("error", JString "rate limited")]));
    [reflexivity | left; reflexivity].
Defined.

Lemma fetch_loop_missing_startTime_witness :
  fetch_loop broken_lot_endpoint "ru" "y1q9" "KEY" 1 0 empty_session []
  = Crashed (UndefinedBehavior "const operator[] on a missing key").
Proof.
  apply (fetch_loop_missing_startTime _ _ _ _ _ _ _ _ (test_lots 2) [("itemId", JString "y1q9")] []);
    [apply (bool_decide_unpack _); vm_compute | ..]; reflexivity.
Defined.

(** ** Bounds of the offset and fuel *)

Lemma fetch_page_full get region itemId apiKey page offset s :
  Forall lot_in_range page -> length page = 100%nat ->
  get (page_request region itemId apiKey offset) = full_page_response page ->
  fetch_page get region itemId apiKey offset s =
  if CInt.INT32_MAX <? offset + limit
  then inl (UndefinedBehavior "signed overflow in offset += limit")
  else inr (Continue (mkSession (lots s ++ dedup (knownStartTimes s) page)
                                (keys page ∪ knownStartTimes s)) (offset + limit)).
Proof.
  intros Hr Hlen Hget. unfold fetch_page. cbv zeta. rewrite Hget. simpl.
  rewrite process_lots_json by done. simpl. by rewrite length_map, Hlen.
Qed.

Section Overflow.

Context (get : request -> response) (region itemId apiKey : string) (page : list LotData).
Hypothesis Hrange : Forall lot_in_range page.
Hypothesis Hlen : length page = 100%nat.
Hypothesis Hfull : forall offset, get (page_request region itemId apiKey offset) = full_page_response page.

Lemma fetch_loop_full_overflow (n : nat) offset s sent fuel :
  offset = 2147483600 - 100 * Z.of_nat n -> (n < fuel)%nat ->
  fetch_loop get region itemId apiKey fuel offset s sent
  = Crashed (UndefinedBehavior "signed overflow in offset += limit").
Proof.
  revert offset s sent fuel. induction n as [|n IH]; intros offset s sent fuel Ho Hf;
    (destruct fuel as [|fuel]; [lia|]); rewrite fetch_loop_S, (fetch_page_full _ _ _ _ page) by done;
    unfold limit, CInt.INT32_MAX.
  - rewrite (proj2 (Z.ltb_lt _ _)) by lia. reflexivity.
  - rewrite (proj2 (Z.ltb_ge _ _)) by lia. apply IH; lia.
Qed.

(** C13: [offset] is an [int] and nothing bounds the loop: an endpoint that
    always answers a full page (for instance one that ignores [offset])
    drives the cycle through 21474837 requests to the signed overflow of
    [offset += limit], which is undefined behaviour. *)
Theorem fetchLots_offset_overflow fuel s :
  21474837 <= Z.of_nat fuel ->
  fetchLots get region itemId apiKey fuel s
  = Crashed (UndefinedBehavior "signed overflow in offset += limit").
Proof.
  intros Hf. unfold fetchLots.
  apply (fetch_loop_full_overflow (Z.to_nat 21474836)); rewrite ?Z2Nat.id; lia.
Qed.

End Overflow.

Lemma fetchLots_offset_overflow_witness :
  fetchLots constant_full_endpoint "ru" "y1q9" "KEY" (Z.to_nat 21474837) empty_session
  = Crashed (UndefinedBehavior "signed overflow in offset += limit").
Proof.
  apply (fetchLots_offset_overflow _ _ _ _ (test_lots 100)).
  - apply (bool_decide_unpack _). vm_compute. reflexivity.
  - reflexivity.
  - reflexivity.
  - rewrite Z2Nat.id; lia.
Defined.

(** ** The requests of a cycle *)

Lemma fetch_loop_sent get region itemId apiKey fuel offset s sent0 s' sent :
  fetch_loop get region itemId apiKey fuel offset s sent0 = Done (s', sent) ->
  exists rest, sent = sent0 ++ page_request region itemId apiKey offset :: rest.
Proof.
  revert offset s sent0. induction fuel as [|fuel IH]; intros offset s sent0 H; [discriminate|].
  rewrite fetch_loop_S in H.
  destruct (fetch_page _ _ _ _ offset s) as [f|[s1|s1 o1]]; try discriminate.
  - injection H as _ <-. by exists [].
  - destruct (IH _ _ _ H) as [rest ->]. exists (page_request region itemId apiKey o1 :: rest).
    by rewrite <- app_assoc.
Qed.

(** A completed cycle starts with the request for offset 0. *)
Lemma fetchLots_sent get region itemId apiKey fuel s s' sent :
  fetchLots get region itemId apiKey fuel s = Done (s', sent) ->
  exists rest, sent = page_request region itemId apiKey 0 :: rest.
Proof. intros H. by apply fetch_loop_sent in H. Qed.

Lemma empty_lots_wf K : session_wf (mkSession [] K).
Proof. split; constructor. Qed.

Lemma fetchLots_wf_step get region itemId apiKey fuel s s' sent :
  fetchLots get region itemId apiKey fuel s = Done (s', sent) -> session_wf s'.
Proof. intros H. eapply fetch_loop_wf; [apply empty_lots_wf | exact H]. Qed.

(** ** Termination against any server, and the shape of every request *)

Section AnyServer.

Context (get : request -> response) (region itemId apiKey : string).

(** A page that asks for the next one moves [offset] by [limit] and only
    within the range of [int]. *)
Lemma fetch_page_continue offset s s' o :
  fetch_page get region itemId apiKey offset s = inr (Continue s' o) ->
  o = offset + limit /\ o <= CInt.INT32_MAX.
Proof.
  unfold fetch_page. intros H. exn_split; try discriminate.
  split; [done|]. repeat match goal with Hb : (_ <? _) = false |- _ => apply Z.ltb_ge in Hb end.
  lia.
Qed.

Lemma fetch_loop_not_OutOfFuel n offset s sent :
  CInt.INT32_MAX < offset + limit * Z.of_nat (S n) ->
  fetch_loop get region itemId apiKey (S n) offset s sent <> OutOfFuel.
Proof.
  revert offset s sent. induction n as [|n IH]; intros offset s sent Hn;
    rewrite fetch_loop_S; destruct (fetch_page _ _ _ _ offset s) as [f|[s1|s1 o1]] eqn:Hp;
    try discriminate; apply fetch_page_continue in Hp as [-> Ho]; [lia|].
  apply IH. lia.
Qed.

(** C19: the [while (true)] loop terminates against every server, whatever
    it answers: within 21474837 iterations a cycle returns or ends in a
    fault (at the latest the signed overflow of [offset += limit]); it never
    needs more fuel. *)
Theorem fetchLots_terminates s :
  fetchLots get region itemId apiKey (Z.to_nat 21474837) s <> OutOfFuel.
Proof.
  unfold fetchLots. change (Z.to_nat 21474837) with (S (Z.to_nat 21474836)).
  apply fetch_loop_not_OutOfFuel. rewrite Nat2Z.inj_succ, Z2Nat.id by lia.
  unfold limit, CInt.INT32_MAX. lia.
Qed.

(** Every request of a loop started at an offset [o] with
    [0 <= o <= INT32_MAX] and [o mod 100 = 0] is a page request at such an
    offset. *)
Lemma fetch_loop_requests fuel offset s sent0 s' sent :
  0 <= offset <= CInt.INT32_MAX -> offset mod limit = 0 ->
  fetch_loop get region itemId apiKey fuel offset s sent0 = Done (s', sent) ->
  exists rest, sent = sent0 ++ rest /\
    Forall (page_request_ok region itemId apiKey) rest.
Proof.
  revert offset s sent0. induction fuel as [|fuel IH]; intros offset s sent0 Hr Hm H;
    [discriminate|].
  rewrite fetch_loop_S in H.
  destruct (fetch_page _ _ _ _ offset s) as [f|[s1|s1 o1]] eqn:Hp; try discriminate.
  - injection H as _ <-. eexists. split; [reflexivity|]. repeat constructor. by exists offset.
  - apply fetch_page_continue in Hp as [-> Ho].
    assert (Hr' : 0 <= offset + limit <= CInt.INT32_MAX) by (unfold limit in *; lia).
    assert (Hm' : (offset + limit) mod limit = 0)
      by (unfold limit in *; rewrite Z.add_mod, Hm by lia; reflexivity).
    destruct (IH _ _ _ Hr' Hm' H) as [rest [-> Hall]].
    exists (page_request region itemId apiKey offset :: rest). rewrite <- app_assoc.
    split; [reflexivity|]. constructor; [by exists offset | exact Hall].
Qed.

Lemma fetchLots_requests fuel s s' sent :
  fetchLots get region itemId apiKey fuel s = Done (s', sent) ->
  Forall (page_request_ok region itemId apiKey) sent.
Proof.
  intros H. apply fetch_loop_requests in H as [rest [-> Hall]]; [exact Hall | | reflexivity].
  unfold CInt.INT32_MAX. lia.
Qed.

(** C25: the three non-const [result["lots"]] of lines 54-57 never insert
    anything, because [contains] is checked first: a page step is the same
    as one that looks [lots] up once and counts the array it finds. *)
Theorem fetch_page_single_lookup offset s :
  fetch_page get region itemId apiKey offset s = fetch_page_ref get region itemId apiKey offset s.
Proof.
  unfold fetch_page, fetch_page_ref. cbv zeta.
  destruct (status_code _ =? 200); [|reflexivity]. simpl.
  destruct (text _) as [result|]; [|reflexivity].
  destruct result as [| | | | | |fs]; try reflexivity. simpl.
  destruct (assoc fs "lots") as [[]|] eqn:E; cbn; rewrite ?E; cbn; rewrite ?E; reflexivity.
Qed.

End AnyServer.

End Fetcher.
