(* ===== verification/Scheduler.v ===== *)
(** * [drawUI]: the per-frame refresh policy and the rendered table

    A frame of [drawUI] (lines 75-114) runs three stages in source order:
    - [auto_stage] (lines 79-82): if [autoRefresh] is on and more than 10 s
      passed since [lastFetchTime], run a fetch cycle and store the frame
      time into the [float] [lastFetchTime], rounded by [Float32.fl32];
    - [button_stage] (lines 85-87): if the refresh button was clicked, run a
      fetch cycle, leaving [lastFetchTime] as it is;
    - [checkbox_stage] (line 89): a click on the checkbox flips
      [autoRefresh].
    Then [render] (lines 91-112) shows the lot count and, when [BeginTable]
    succeeds, one row per lot, each with its unit-price division.

    [ui_state] holds the two [static]s of [drawUI] and the session (the two
    globals).  [frame_input] is what the frame reads from outside: the time
    [ImGui::GetTime()] (in units of [2^-20] s, see [Float32]; constant
    within a frame), the two widget clicks, the result of [BeginTable], and
    the endpoint [cpr::Get] talks to during this frame.  A frame returns the
    new state, the view, and the requests it sent.  Frames chain into
    [reachable] states, an inductive relation. *)

From stdpp Require Import base list gmap strings.
From Stdlib Require Import ZArith Lia.
From S2P Require Import Prelude CInt Float32 Json Lot Http Fetcher.
Import Json Lot Http Fetcher.

Open Scope Z_scope.

Module Scheduler.

Local Set Warnings "-clear-no-such-hyp".

Record ui_state := mkUI {
  globals : session;           (** the globals [lots] and [knownStartTimes] *)
  autoRefresh : bool;           (** [static bool autoRefresh = false;] *)
  lastFetchTime : Z             (** [static float lastFetchTime = 0.0f;] *)
}.

Definition initial_ui : ui_state := mkUI (mkSession [] ∅) false 0.

Record frame_input := mkFrame {
  now : Z;                              (** [ImGui::GetTime()] *)
  refresh_clicked : bool;               (** [ImGui::Button("Обновить")] *)
  checkbox_clicked : bool;              (** a click on the checkbox *)
  table_visible : bool;                 (** [ImGui::BeginTable(...)], line 92 *)
  endpoint : request -> response        (** the server during this frame *)
}.

(** [10.0f] seconds, in units of [2^-20] s. *)
Definition refresh_interval : Z := 10 * 2 ^ 20.

Record view := mkView {
  lot_count : nat;                      (** [lots.size()], line 91 *)
  table : list row                      (** lines 99-109 *)
}.

Section Frame.

Context (fuel : nat) (region itemId apiKey : string).

(** [fetchLots(region, itemId, apiKey)]: the new session and the requests. *)
Definition fetch (get : request -> response) (s : session)
    : outcome (session * list request) :=
  fetchLots get region itemId apiKey fuel s.

(** Line 79: [autoRefresh && ImGui::GetTime() - lastFetchTime > 10.0f] *)
Definition auto_due (u : ui_state) (t : Z) : bool :=
  autoRefresh u && (refresh_interval <? t - lastFetchTime u).

(** Lines 79-82. *)
Definition auto_stage (inp : frame_input) (u : ui_state)
    : outcome (ui_state * list request) :=
  if auto_due u (now inp) then
    let! '(s, sent) := fetch (endpoint inp) (globals u) in
    Done (mkUI s (autoRefresh u) (Float32.fl32 (now inp)), sent)
  else Done (u, []).

(** Lines 85-87. *)
Definition button_stage (inp : frame_input) (u : ui_state)
    : outcome (ui_state * list request) :=
  if refresh_clicked inp then
    let! '(s, sent) := fetch (endpoint inp) (globals u) in
    Done (mkUI s (autoRefresh u) (lastFetchTime u), sent)
  else Done (u, []).

(** Line 89. *)
Definition checkbox_stage (inp : frame_input) (u : ui_state) : ui_state :=
  if checkbox_clicked inp then mkUI (globals u) (negb (autoRefresh u)) (lastFetchTime u)
  else u.

(** Lines 91-112: the count (line 91), then the rows in order when the
    table begins (line 92). *)
Definition render (inp : frame_input) (u : ui_state) : exn view :=
  let* rows := (if table_visible inp then exn_map row_of (lots (globals u)) else exn_ret []) in
  exn_ret (mkView (length (lots (globals u))) rows).

(** Lines 75-114: one frame. *)
Definition drawUI (inp : frame_input) (u : ui_state)
    : outcome (ui_state * view * list request) :=
  let! '(u1, sent1) := auto_stage inp u in
  let! '(u2, sent2) := button_stage inp u1 in
  let u3 := checkbox_stage inp u2 in
  let! v := of_exn (render inp u3) in
  Done (u3, v, sent1 ++ sent2).

(** Lines 136-151: the frame loop of [main], one [drawUI] per frame until
    the window closes; the requests of all frames in order. *)
Fixpoint run_frames (inps : list frame_input) (u : ui_state)
    : outcome (ui_state * list request) :=
  match inps with
  | [] => Done (u, [])
  | inp :: rest =>
      let! '(u1, _, sent1) := drawUI inp u in
      let! '(u2, sent2) := run_frames rest u1 in
      Done (u2, sent1 ++ sent2)
  end.

(** The states the frame loop of [main] reaches, with the time of the last
    frame; the time of frames never decreases. *)
Inductive reachable : ui_state -> Z -> Prop :=
  | reach_init : reachable initial_ui 0
  | reach_frame u t inp u' v sent :
      reachable u t -> t <= now inp ->
      drawUI inp u = Done (u', v, sent) ->
      reachable u' (now inp).

End Frame.

(** ** Fixtures for the witnesses *)

Definition test_frame (t : Z) (click toggle : bool) : frame_input :=
  mkFrame t click toggle true (test_endpoint (test_lots 250)).

Definition auto_on (last : Z) : ui_state := mkUI (mkSession [] ∅) true last.

(** Frames against a server with three lots. *)
Definition small_frame (t : Z) (click toggle : bool) : frame_input :=
  mkFrame t click toggle true (test_endpoint (test_lots 3)).


(** ** Lemmas on the stages *)

(** The session invariant, and [lastFetchTime] is its initial 0 or the
    stored [float] of a frame time up to [t]. *)
Definition ui_inv (u : ui_state) (t : Z) : Prop :=
  session_wf (globals u) /\ 0 <= t /\
  (lastFetchTime u = 0 \/ exists t', 0 <= t' <= t /\ lastFetchTime u = Float32.fl32 t').

Section Stages.

Context (fuel : nat) (region itemId apiKey : string).

Lemma drawUI_Done inp u u' v sent :
  drawUI fuel region itemId apiKey inp u = Done (u', v, sent) ->
  exists u1 sent1 u2 sent2,
    auto_stage fuel region itemId apiKey inp u = Done (u1, sent1) /\
    button_stage fuel region itemId apiKey inp u1 = Done (u2, sent2) /\
    u' = checkbox_stage inp u2 /\ render inp u' = inr v /\ sent = sent1 ++ sent2.
Proof.
  unfold drawUI. intros H.
  destruct (auto_stage _ _ _ _ inp u) as [[u1 sent1]| |] eqn:E1; try discriminate. simpl in H.
  destruct (button_stage _ _ _ _ inp u1) as [[u2 sent2]| |] eqn:E2; try discriminate. simpl in H.
  destruct (render inp (checkbox_stage inp u2)) as [f|v'] eqn:E3; try discriminate. simpl in H.
  exists u1, sent1, u2, sent2. injection H; intros; subst. auto.
Qed.

Lemma render_count inp u v : render inp u = inr v -> lot_count v = length (lots (globals u)).
Proof. unfold render. intros H. exn_inv. reflexivity. Qed.

Lemma auto_stage_Done inp u u1 sent1 :
  auto_stage fuel region itemId apiKey inp u = Done (u1, sent1) ->
  (auto_due u (now inp) = false /\ u1 = u /\ sent1 = []) \/
  (auto_due u (now inp) = true /\
   fetch fuel region itemId apiKey (endpoint inp) (globals u) = Done (globals u1, sent1) /\
   autoRefresh u1 = autoRefresh u /\ lastFetchTime u1 = Float32.fl32 (now inp)).
Proof.
  unfold auto_stage. destruct (auto_due u (now inp)); intros H.
  - right. destruct (fetch _ _ _ _ _ _) as [[s sent]| |]; try discriminate.
    simpl in H. injection H as <- <-. auto.
  - left. injection H as <- <-. auto.
Qed.

Lemma button_stage_Done inp u u2 sent2 :
  button_stage fuel region itemId apiKey inp u = Done (u2, sent2) ->
  (refresh_clicked inp = false /\ u2 = u /\ sent2 = []) \/
  (refresh_clicked inp = true /\
   fetch fuel region itemId apiKey (endpoint inp) (globals u) = Done (globals u2, sent2) /\
   autoRefresh u2 = autoRefresh u /\ lastFetchTime u2 = lastFetchTime u).
Proof.
  unfold button_stage. destruct (refresh_clicked inp); intros H.
  - right. destruct (fetch _ _ _ _ _ _) as [[s sent]| |]; try discriminate.
    simpl in H. injection H as <- <-. auto.
  - left. injection H as <- <-. auto.
Qed.

Lemma checkbox_stage_globals inp u :
  globals (checkbox_stage inp u) = globals u /\ lastFetchTime (checkbox_stage inp u) = lastFetchTime u.
Proof. unfold checkbox_stage. by destruct (checkbox_clicked inp). Qed.

Lemma fetch_wf get s s' sent :
  fetch fuel region itemId apiKey get s = Done (s', sent) -> session_wf s'.
Proof. apply fetchLots_wf_step. Qed.

Lemma drawUI_inv inp u t u' v sent :
  ui_inv u t -> t <= now inp ->
  drawUI fuel region itemId apiKey inp u = Done (u', v, sent) -> ui_inv u' (now inp).
Proof.
  intros (Hwf & Ht0 & Ht) Hle H.
  apply drawUI_Done in H as (u1 & sent1 & u2 & sent2 & H1 & H2 & -> & _ & _).
  unfold ui_inv. destruct (checkbox_stage_globals inp u2) as [-> ->].
  assert (Hu1 : session_wf (globals u1) /\
                (lastFetchTime u1 = 0 \/ exists t', 0 <= t' <= now inp /\
                                                    lastFetchTime u1 = Float32.fl32 t')).
  { apply auto_stage_Done in H1 as [(_ & -> & _) | (_ & Hf & _ & ->)].
    - split; [done|]. destruct Ht as [?|(t' & ? & ?)]; [by left | right; exists t'; split; [lia|done]].
    - split; [eapply fetch_wf, Hf | right; exists (now inp); split; [lia|done]]. }
  destruct Hu1 as [Hwf1 Ht1].
  apply button_stage_Done in H2 as [(_ & -> & _) | (_ & Hf & _ & ->)];
    (split; [try done; eapply fetch_wf, Hf | split; [lia | done]]).
Qed.

Lemma run_frames_cons_Done inp inps u u' sent :
  run_frames fuel region itemId apiKey (inp :: inps) u = Done (u', sent) ->
  exists u1 v1 sent1 sent2,
    drawUI fuel region itemId apiKey inp u = Done (u1, v1, sent1) /\
    run_frames fuel region itemId apiKey inps u1 = Done (u', sent2) /\ sent = sent1 ++ sent2.
Proof.
  simpl. intros H. exn_inv. destruct a as [[u1 v1] sent1]. exn_inv.
  destruct a as [u2 sent2]. exn_inv. eauto 7.
Qed.

Lemma drawUI_requests inp u u' v sent :
  drawUI fuel region itemId apiKey inp u = Done (u', v, sent) ->
  Forall (page_request_ok region itemId apiKey) sent.
Proof.
  intros H. apply drawUI_Done in H as (u1 & sent1 & u2 & sent2 & H1 & H2 & _ & _ & ->).
  apply Forall_app. split.
  - apply auto_stage_Done in H1 as [(_ & _ & ->) | (_ & Hf & _)];
      [constructor | eapply fetchLots_requests, Hf].
  - apply button_stage_Done in H2 as [(_ & _ & ->) | (_ & Hf & _)];
      [constructor | eapply fetchLots_requests, Hf].
Qed.

Lemma run_frames_requests inps u u' sent :
  run_frames fuel region itemId apiKey inps u = Done (u', sent) ->
  Forall (page_request_ok region itemId apiKey) sent.
Proof.
  revert u u' sent. induction inps as [|inp inps IH]; intros u u' sent H.
  - by injection H as _ <-.
  - apply run_frames_cons_Done in H as (u1 & v1 & sent1 & sent2 & H1 & H2 & ->).
    apply Forall_app. split; [eapply drawUI_requests; eauto | eapply IH; eauto].
Qed.


End Stages.

(** ** Properties *)

(** C14: in every state the frame loop reaches, the table shows lots with
    distinct start times, all known, and [lastFetchTime] is either its
    initial 0 or the [float] rounding of the time of a frame no later than
    the last one (which may lie slightly after that frame). *)
Theorem reachable_inv fuel region itemId apiKey u t :
  reachable fuel region itemId apiKey u t -> ui_inv u t.
Proof.
  induction 1 as [|u t inp u' v sent _ IH Hle H].
  - split; [apply empty_lots_wf | split; [lia | by left]].
  - eapply drawUI_inv; eauto.
Qed.

(** C15: without a click on the refresh button, a frame fetches only when
    auto-refresh is on and more than 10 s passed since [lastFetchTime]; it
    then stores the frame time rounded to [float] and starts its requests
    at offset 0.
    Otherwise it sends nothing and leaves the lots and the timestamp alone,
    whatever the elapsed time. *)
Theorem frame_auto_gate fuel region itemId apiKey inp u u' v sent :
  refresh_clicked inp = false ->
  drawUI fuel region itemId apiKey inp u = Done (u', v, sent) ->
  (autoRefresh u = true /\ refresh_interval < now inp - lastFetchTime u /\
   lastFetchTime u' = Float32.fl32 (now inp) /\
   exists rest, sent = page_request region itemId apiKey 0 :: rest) \/
  ((autoRefresh u = false \/ now inp - lastFetchTime u <= refresh_interval) /\
   sent = [] /\ globals u' = globals u /\ lastFetchTime u' = lastFetchTime u).
Proof.
  intros Hc H. apply drawUI_Done in H as (u1 & sent1 & u2 & sent2 & H1 & H2 & -> & _ & ->).
  apply button_stage_Done in H2 as [(_ & -> & ->) | (Hc' & _)]; [|congruence].
  destruct (checkbox_stage_globals inp u1) as [-> ->]. rewrite app_nil_r.
  unfold auto_due in H1. apply auto_stage_Done in H1 as [(Hd & -> & ->) | (Hd & Hf & _ & ->)].
  - right. apply andb_false_iff in Hd as [Hd|Hd]; [auto|]. apply Z.ltb_ge in Hd. auto.
  - left. apply andb_true_iff in Hd as [Ha Hd]. apply Z.ltb_lt in Hd.
    repeat split; auto. eapply fetchLots_sent, Hf.
Qed.

(** C16: a manual refresh runs a whole cycle but does not update
    [lastFetchTime] (the spec updates it after every cycle); so with
    auto-refresh on and the timer overdue, the next frame fetches again. *)
Theorem manual_refresh_keeps_time fuel region itemId apiKey inp u u' v sent :
  refresh_clicked inp = true -> auto_due u (now inp) = false ->
  drawUI fuel region itemId apiKey inp u = Done (u', v, sent) ->
  lastFetchTime u' = lastFetchTime u /\
  exists rest, sent = page_request region itemId apiKey 0 :: rest.
Proof.
  intros Hc Hd H. apply drawUI_Done in H as (u1 & sent1 & u2 & sent2 & H1 & H2 & -> & _ & ->).
  apply auto_stage_Done in H1 as [(_ & -> & ->) | (Hd' & _)]; [|congruence].
  apply button_stage_Done in H2 as [(Hc' & _) | (_ & Hf & _ & Ht)]; [congruence|].
  destruct (checkbox_stage_globals inp u2) as [_ ->]. split; [done|].
  eapply fetchLots_sent, Hf.
Qed.

Lemma run_frames_no_fetch_from_zero fuel region itemId apiKey inps u u' sent :
  lastFetchTime u = 0 ->
  Forall (fun inp => refresh_clicked inp = false /\ now inp <= refresh_interval) inps ->
  run_frames fuel region itemId apiKey inps u = Done (u', sent) -> sent = [].
Proof.
  revert u u' sent. induction inps as [|inp inps IH]; intros u u' sent H0 Hall H;
    [by injection H as _ <-|].
  apply Forall_cons in Hall as [[Hc Ht] Hall].
  apply run_frames_cons_Done in H as (u1 & v & sent1 & sent2 & Hd & Hr & ->).
  apply drawUI_Done in Hd as (ua & senta & ub & sentb & H1 & H2 & -> & _ & ->).
  apply button_stage_Done in H2 as [(_ & -> & ->) | (Hc' & _)]; [|congruence].
  apply auto_stage_Done in H1 as [(_ & -> & ->) | (Hd & _)].
  - simpl. eapply IH; [| exact Hall | exact Hr].
    by rewrite (proj2 (checkbox_stage_globals inp u)).
  - unfold auto_due in Hd. rewrite H0 in Hd. apply andb_true_iff in Hd as [_ Hd].
    apply Z.ltb_lt in Hd. unfold refresh_interval in *. lia.
Qed.

(** C17: [lastFetchTime] starts at 0, not at "never fetched": during the
    first 10 s no frame without a click on the refresh button fetches, even
    when auto-refresh is switched on in the very first frame. *)
Theorem first_ten_seconds_no_auto_fetch fuel region itemId apiKey inps u' sent :
  Forall (fun inp => refresh_clicked inp = false /\ now inp <= refresh_interval) inps ->
  run_frames fuel region itemId apiKey inps initial_ui = Done (u', sent) -> sent = [].
Proof. intros Hall H. exact (run_frames_no_fetch_from_zero _ _ _ _ _ initial_ui _ _ eq_refl Hall H). Qed.

(** C18: when the auto-refresh timer is due in the frame where the refresh
    button is clicked, two whole cycles run back to back against the same
    server, and the second one shows nothing: the table goes blank. *)
Theorem both_triggers_blank_table fuel region itemId apiKey all inp u u' v sent
  `{!PagedEndpoint (endpoint inp) region itemId apiKey (map lot_json all)} :
  Forall lot_in_range all -> Z.of_nat (length all) <= CInt.INT32_MAX ->
  (length all / 100 < fuel)%nat ->
  auto_due u (now inp) = true -> refresh_clicked inp = true ->
  drawUI fuel region itemId apiKey inp u = Done (u', v, sent) ->
  lot_count v = 0%nat /\ length sent = (2 * (length all / 100 + 1))%nat.
Proof.
  intros Hr Hmax Hfuel Hd Hc H.
  apply drawUI_Done in H as (u1 & sent1 & u2 & sent2 & H1 & H2 & -> & Hv & ->).
  apply auto_stage_Done in H1 as [(Hd' & _) | (_ & Hf1 & _)]; [congruence|].
  apply button_stage_Done in H2 as [(Hc' & _) | (_ & Hf2 & _)]; [congruence|].
  unfold fetch in Hf1, Hf2.
  rewrite (fetchLots_served _ _ _ _ all) in Hf1, Hf2 by done.
  injection Hf1 as Hs1 <-. injection Hf2 as Hs2 <-.
  rewrite (render_count _ _ _ Hv), (proj1 (checkbox_stage_globals inp u2)), <- Hs2, <- Hs1.
  cbn [lots]. rewrite dedup_known by set_solver. rewrite length_app, !length_map, length_seq. split; [reflexivity | cbn [Nat.div]; lia].
Qed.


(** C27: the [float] store of line 81 makes auto-refresh fetch in every
    frame once the process has run long enough: at [2^28 + 15] s (about 8.5
    years) the frame time is stored as [2^28] s, 15 s early, so right after
    its cycle the timer is already overdue for every later frame. *)
Theorem auto_refresh_float_drift fuel region itemId apiKey inp u u' v sent :
  now inp = 2 ^ 48 + 15 * 2 ^ 20 -> auto_due u (now inp) = true ->
  checkbox_clicked inp = false ->
  drawUI fuel region itemId apiKey inp u = Done (u', v, sent) ->
  lastFetchTime u' = 2 ^ 48 /\ forall t, now inp <= t -> auto_due u' t = true.
Proof.
  intros Hn Hd Hk H. apply drawUI_Done in H as (u1 & sent1 & u2 & sent2 & H1 & H2 & -> & _ & _).
  assert (Ha : autoRefresh u = true) by (unfold auto_due in Hd; apply andb_true_iff in Hd; tauto).
  apply auto_stage_Done in H1 as [(Hd' & _) | (_ & _ & Ha1 & Ht1)]; [congruence|].
  assert (Hl : lastFetchTime u1 = 2 ^ 48) by (rewrite Ht1, Hn; vm_compute; reflexivity).
  assert (Hu2 : autoRefresh u2 = true /\ lastFetchTime u2 = 2 ^ 48).
  { apply button_stage_Done in H2 as [(_ & -> & _) | (_ & _ & -> & ->)]; split; congruence. }
  unfold checkbox_stage. rewrite Hk. destruct Hu2 as [Ha2 Hl2]. split; [exact Hl2|].
  intros t Ht. unfold auto_due. rewrite Ha2, Hl2. simpl. apply Z.ltb_lt.
  unfold refresh_interval. lia.
Qed.

(** ** Witnesses *)

Lemma reachable_inv_witness :
  exists u', reachable 3 "ru" "y1q9" "KEY" u' (30 * 2 ^ 20 + 1) /\ ui_inv u' (30 * 2 ^ 20 + 1).
Proof.
  name_run (drawUI 3 "ru" "y1q9" "KEY" (test_frame (20 * 2 ^ 20) false true) initial_ui) r1 E1.
  destruct r1 as [[[u1 v1] sent1]| |]; [| refute_by_compute E1 ..].
  pose proof E1 as E1'. vm_compute in E1'. injection E1' as Hu1 _ _.
  name_run (drawUI 3 "ru" "y1q9" "KEY" (test_frame (30 * 2 ^ 20 + 1) false false) u1) r2 E2.
  destruct r2 as [[[u2 v2] sent2]| |]; [| rewrite <- Hu1 in E2; refute_by_compute E2 ..].
  assert (R : reachable 3 "ru" "y1q9" "KEY" u2 (30 * 2 ^ 20 + 1)).
  { change (30 * 2 ^ 20 + 1) with (now (test_frame (30 * 2 ^ 20 + 1) false false)).
    eapply (reach_frame _ _ _ _ u1 (20 * 2 ^ 20)); [| cbv [now test_frame]; lia | exact E2].
    change (20 * 2 ^ 20) with (now (test_frame (20 * 2 ^ 20) false true)).
    eapply (reach_frame _ _ _ _ initial_ui 0);
      [apply reach_init | cbv [now test_frame]; lia | exact E1]. }
  exists u2. split; [exact R | exact (reachable_inv _ _ _ _ _ _ R)].
Defined.

Lemma frame_auto_gate_witness :
  exists u' v sent,
    drawUI 3 "ru" "y1q9" "KEY" (test_frame (20 * 2 ^ 20 + 1) false false) (auto_on 0)
      = Done (u', v, sent) /\
    lastFetchTime u' = 20 * 2 ^ 20 /\
    exists rest, sent = page_request "ru" "y1q9" "KEY" 0 :: rest.
Proof.
  name_run (drawUI 3 "ru" "y1q9" "KEY" (test_frame (20 * 2 ^ 20 + 1) false false) (auto_on 0)) r E.
  destruct r as [[[u' v] sent]| |]; [| refute_by_compute E ..].
  exists u', v, sent. split; [exact E|].
  pose proof (frame_auto_gate 3 "ru" "y1q9" "KEY" (test_frame (20 * 2 ^ 20 + 1) false false)
                (auto_on 0) u' v sent eq_refl E) as G.
  destruct G as [(_ & _ & Ht & Hs) | (Ha & _)].
  - split; [|exact Hs]. rewrite Ht. change (Float32.fl32 (20 * 2 ^ 20 + 1) = 20 * 2 ^ 20).
    vm_compute. reflexivity.
  - destruct Ha as [Ha | Ha]; [discriminate Ha|].
    change (20 * 2 ^ 20 + 1 - 0 <= 10 * 2 ^ 20) in Ha. lia.
Defined.

Lemma manual_refresh_keeps_time_witness :
  exists u' v sent,
    drawUI 3 "ru" "y1q9" "KEY" (test_frame (20 * 2 ^ 20) true false) (auto_on (15 * 2 ^ 20))
      = Done (u', v, sent) /\
    lastFetchTime u' = 15 * 2 ^ 20 /\
    exists rest, sent = page_request "ru" "y1q9" "KEY" 0 :: rest.
Proof.
  name_run (drawUI 3 "ru" "y1q9" "KEY" (test_frame (20 * 2 ^ 20) true false) (auto_on (15 * 2 ^ 20))) r E.
  destruct r as [[[u' v] sent]| |]; [| refute_by_compute E ..].
  exists u', v, sent. split; [exact E|].
  exact (manual_refresh_keeps_time 3 "ru" "y1q9" "KEY" (test_frame (20 * 2 ^ 20) true false)
           (auto_on (15 * 2 ^ 20)) u' v sent eq_refl eq_refl E).
Defined.

Lemma first_ten_seconds_no_auto_fetch_witness :
  exists u' sent,
    run_frames 3 "ru" "y1q9" "KEY"
      [test_frame 0 false true; test_frame (5 * 2 ^ 20) false false;
       test_frame (10 * 2 ^ 20) false false]
      initial_ui = Done (u', sent) /\ autoRefresh u' = true /\ sent = [].
Proof.
  name_run (run_frames 3 "ru" "y1q9" "KEY"
      [test_frame 0 false true; test_frame (5 * 2 ^ 20) false false;
       test_frame (10 * 2 ^ 20) false false]
      initial_ui) r E.
  destruct r as [[u' sent]| |]; [| refute_by_compute E ..].
  exists u', sent. split; [exact E|]. split.
  - pose proof E as E'. vm_compute in E'. by injection E' as <- _.
  - refine (first_ten_seconds_no_auto_fetch 3 "ru" "y1q9" "KEY"
              [test_frame 0 false true; test_frame (5 * 2 ^ 20) false false;
               test_frame (10 * 2 ^ 20) false false]
              u' sent _ E).
    repeat constructor; cbv [now test_frame refresh_interval]; lia.
Defined.

Lemma both_triggers_blank_table_witness :
  exists u' v sent,
    drawUI 3 "ru" "y1q9" "KEY" (test_frame (20 * 2 ^ 20) true false) (auto_on 0) = Done (u', v, sent) /\
    lot_count v = 0%nat /\ length sent = 6%nat.
Proof.
  name_run (drawUI 3 "ru" "y1q9" "KEY" (test_frame (20 * 2 ^ 20) true false) (auto_on 0)) r E.
  destruct r as [[[u' v] sent]| |]; [| refute_by_compute E ..].
  exists u', v, sent. split; [exact E|].
  refine (both_triggers_blank_table 3 "ru" "y1q9" "KEY" (test_lots 250)
            (test_frame (20 * 2 ^ 20) true false) (auto_on 0) u' v sent _ _ _ eq_refl eq_refl E).
  - apply (bool_decide_unpack _). vm_compute. reflexivity.
  - unfold test_lots. rewrite length_map, length_seq. unfold CInt.INT32_MAX. lia.
  - unfold test_lots. rewrite length_map, length_seq. apply Nat.ltb_lt. reflexivity.
Defined.


Lemma auto_refresh_float_drift_witness :
  exists u' v sent,
    drawUI 2 "ru" "y1q9" "KEY" (small_frame (2 ^ 48 + 15 * 2 ^ 20) false false) (auto_on 0)
      = Done (u', v, sent) /\
    lastFetchTime u' = 2 ^ 48 /\ auto_due u' (2 ^ 48 + 16 * 2 ^ 20) = true.
Proof.
  name_run (drawUI 2 "ru" "y1q9" "KEY" (small_frame (2 ^ 48 + 15 * 2 ^ 20) false false) (auto_on 0)) r E.
  destruct r as [[[u' v] sent]| |]; [| refute_by_compute E ..].
  exists u', v, sent. split; [exact E|].
  destruct (auto_refresh_float_drift 2 "ru" "y1q9" "KEY"
              (small_frame (2 ^ 48 + 15 * 2 ^ 20) false false) (auto_on 0) u' v sent
              eq_refl eq_refl eq_refl E) as [Hl Hall].
  split; [exact Hl | apply Hall; cbv [now small_frame]; lia].
Defined.

End Scheduler.
