(* ===== verification/Config.v ===== *)
(** * Configuration: [loadConfig] and the three reads of [main]

    [loadConfig] (lines 32-40) opens the file, throws [std::runtime_error]
    when it cannot, and parses it with [operator>>], which throws a
    [parse_error] on malformed text.  [main] (lines 117-120) then reads
    [api_key], [region] and [item_id] with the non-const [operator[]] of the
    non-const [json config], and converts each to [std::string].  A missing
    key is inserted as null, whose conversion throws type_error 302; a
    top-level value that is not an object throws type_error 305, except
    null, which the first [operator[]] turns into an object.  Nothing catches
    these exceptions: each one ends the process before the window opens.

    The file system is a function from file names to what [operator>>] makes
    of the file, or [None] when [std::ifstream] cannot open it. *)

From stdpp Require Import base list strings.
From Stdlib Require Import ZArith Lia.
From S2P Require Import Prelude Json Http.
Import Json Http.

Module Config.

(** What the process can open: per file name, [None] when the stream does
    not open, otherwise the outcome of [operator>>] on its text. *)
Definition filesystem := string -> option body.

(** Lines 32-40.  The message of the exception is the program's
    "Не удалось открыть config.json" ("could not open config.json"). *)
Definition loadConfig (fs : filesystem) (filename : string) : exn json :=
  match fs filename with
  | None => throw (RuntimeError "could not open config.json")
  | Some Unparsable => throw ParseError
  | Some (Parsed config) => exn_ret config
  end.

(** The three strings [main] passes to [drawUI]. *)
Record config := mkConfig {
  cfg_api_key : string;
  cfg_region : string;
  cfg_item_id : string
}.

(** Lines 117-120: the reads, in order, each through the non-const
    [operator[]], which may change [config]. *)
Definition read_config (fs : filesystem) : exn config :=
  let* config := loadConfig fs "config.json" in
  let* '(config, v) := at_mut config "api_key" in
  let* apiKey := get_string v in
  let* '(config, v) := at_mut config "region" in
  let* region := get_string v in
  let* '(_, v) := at_mut config "item_id" in
  let* itemId := get_string v in
  exn_ret (mkConfig apiKey region itemId).

(** ** Fixtures for the witnesses *)

Definition test_config_json : json :=
  JObject [("region", JString "ru"); ("api_key", JString "KEY"); ("item_id", JString "y1q9")].

Definition test_fs (config : json) : filesystem :=
  fun name => if String.eqb name "config.json" then Some (Parsed config) else None.

(** ** Properties *)

(** C20: a configuration object whose three keys hold strings gives
    exactly those strings, whatever the order of its keys and whatever
    other keys it has. *)
Theorem read_config_ok fs fields a r i :
  fs "config.json" = Some (Parsed (JObject fields)) ->
  assoc fields "api_key" = Some (JString a) ->
  assoc fields "region" = Some (JString r) ->
  assoc fields "item_id" = Some (JString i) ->
  read_config fs = inr (mkConfig a r i).
Proof.
  intros Hfs Ha Hr Hi. unfold read_config, loadConfig. rewrite Hfs. cbn.
  rewrite Ha. cbn. rewrite Hr. cbn. by rewrite Hi.
Qed.

Example read_config_ok_witness :
  read_config (test_fs test_config_json) = inr (mkConfig "KEY" "ru" "y1q9").
Proof.
  apply (read_config_ok _ [("region", JString "ru"); ("api_key", JString "KEY");
                           ("item_id", JString "y1q9")]); reflexivity.
Defined.

(** C21: a configuration object without one of the three keys ends the
    process with type_error 302: the non-const [operator[]] inserts a null
    and the conversion of null to [std::string] throws, whatever the other
    two keys hold. *)
Theorem read_config_missing_key fs fields k :
  fs "config.json" = Some (Parsed (JObject fields)) ->
  k = "api_key" \/ k = "region" \/ k = "item_id" ->
  assoc fields k = None ->
  read_config fs = inl (TypeError 302).
Proof.
  intros Hfs Hk Hnone. unfold read_config, loadConfig. rewrite Hfs. cbn.
  destruct Hk as [-> | [-> | ->]];
    repeat (rewrite ?Hnone; cbn; try reflexivity;
            match goal with |- context [assoc fields ?k'] =>
              destruct (assoc fields k') as [[]|]; cbn; try reflexivity end).
Qed.

Example read_config_missing_key_witness :
  read_config (test_fs (JObject [("region", JString "ru"); ("api_key", JString "KEY")]))
  = inl (TypeError 302).
Proof.
  apply (read_config_missing_key _ [("region", JString "ru"); ("api_key", JString "KEY")] "item_id");
    [reflexivity | right; right; reflexivity | reflexivity].
Defined.

(** C22: a configuration file whose top level is neither an object nor
    null (an array, a string, a number, a boolean) ends the process with
    type_error 305 at the first read; a top-level null is turned into an
    object by that read, and ends it with type_error 302. *)
Theorem read_config_not_object fs config :
  fs "config.json" = Some (Parsed config) -> is_object config = false ->
  read_config fs = inl (TypeError (match config with JNull => 302 | _ => 305 end)).
Proof.
  intros Hfs Hobj. unfold read_config, loadConfig. rewrite Hfs.
  destruct config; try discriminate Hobj; reflexivity.
Qed.

Example read_config_not_object_witness :
  read_config (test_fs (JArray [test_config_json])) = inl (TypeError 305) /\
  read_config (test_fs JNull) = inl (TypeError 302).
Proof.
  split; [apply (read_config_not_object _ (JArray [test_config_json]))
         | apply (read_config_not_object _ JNull)]; reflexivity.
Defined.

End Config.
