(* ===== verification/Main.v ===== *)
(** * [main]: the configuration, the window, and the frame loop

    [main] (lines 116-160) reads the configuration (lines 117-120) and
    returns 1 when [glfwInit()] fails (line 123).  When [glfwCreateWindow]
    returns NULL (line 125), the next GLFW calls on that window (from
    [ImGui_ImplGlfw_InitForOpenGL], line 132) dereference it: undefined
    behaviour.  Otherwise it runs one [drawUI] per frame until the window
    closes (lines 136-151) and returns 0.  The other window and rendering
    calls (lines 124-134, 137-150 but line 142, and 153-158) change no state
    of the program and are not modelled.  The frames are those the window
    shows before [glfwWindowShouldClose]. *)

From stdpp Require Import base list gmap strings.
From Stdlib Require Import ZArith Lia.
From S2P Require Import Prelude Json Http Fetcher Scheduler Config.
Import Json Http Fetcher Scheduler Config.

Open Scope Z_scope.

Module Main.

(** Lines 116-160: the exit status, the final state of the statics and
    globals, and the requests of all frames in order.  [glfw_ok] is the
    result of [glfwInit()], [window_ok] whether [glfwCreateWindow] returned a
    window. *)
Definition main (fuel : nat) (fs : filesystem) (glfw_ok window_ok : bool)
    (frames : list frame_input) : outcome (Z * ui_state * list request) :=
  let! cfg := of_exn (read_config fs) in
  if negb glfw_ok then Done (1, initial_ui, [])
  else if negb window_ok then Crashed (UndefinedBehavior "GLFW call on a null window")
  else
    let! '(u, sent) := run_frames fuel (cfg_region cfg) (cfg_item_id cfg) (cfg_api_key cfg)
                         frames initial_ui in
    Done (0, u, sent).

(** ** Lemmas *)

Lemma main_Done fuel fs glfw_ok window_ok frames code u sent :
  main fuel fs glfw_ok window_ok frames = Done (code, u, sent) ->
  exists cfg, read_config fs = inr cfg /\
    ((glfw_ok = false /\ code = 1 /\ u = initial_ui /\ sent = []) \/
     (glfw_ok = true /\ window_ok = true /\ code = 0 /\
      run_frames fuel (cfg_region cfg) (cfg_item_id cfg) (cfg_api_key cfg) frames initial_ui
      = Done (u, sent))).
Proof.
  unfold main. destruct (read_config fs) as [f|cfg]; simpl; [discriminate|].
  intros H. exists cfg. split; [done|]. destruct glfw_ok, window_ok; simpl in H; try discriminate.
  - right. exn_inv. destruct a as [u' sent']. exn_inv. auto.
  - left. injection H as <- <- <-. auto.
  - left. injection H as <- <- <-. auto.
Qed.

(** ** Properties *)

(** C23: every request the process sends is a page request of the
    configured region and item, carries the configured key as its bearer
    token, and asks for an offset within [int] range that is a multiple of
    100.  A process whose [glfwInit] fails exits with 1 and sends nothing;
    one whose [glfwInit] succeeds and that ends normally exits with 0. *)
Theorem main_requests_authorized fuel fs glfw_ok window_ok frames code u sent cfg :
  read_config fs = inr cfg ->
  main fuel fs glfw_ok window_ok frames = Done (code, u, sent) ->
  Forall (page_request_ok (cfg_region cfg) (cfg_item_id cfg) (cfg_api_key cfg)) sent /\
  (glfw_ok = false -> code = 1 /\ sent = []) /\
  (glfw_ok = true -> code = 0).
Proof.
  intros Hc H. apply main_Done in H as (cfg' & Hc' & H). rewrite Hc in Hc'.
  injection Hc' as <-. destruct H as [(-> & -> & _ & ->) | (-> & _ & -> & H)].
  - repeat split; try constructor; discriminate.
  - split; [eapply run_frames_requests, H|]. split; [discriminate | done].
Qed.

(** ** Witnesses *)

Lemma main_requests_authorized_witness :
  exists code u sent,
    main 2 (test_fs test_config_json) true true [small_frame (20 * 2 ^ 20) true false]
      = Done (code, u, sent) /\
    Forall (page_request_ok "ru" "y1q9" "KEY") sent /\
    (true = false -> code = 1 /\ sent = []) /\ (true = true -> code = 0).
Proof.
  name_run (main 2 (test_fs test_config_json) true true [small_frame (20 * 2 ^ 20) true false]) r E.
  destruct r as [[[code u] sent]| |]; [| refute_by_compute E ..].
  exists code, u, sent. split; [exact E|].
  exact (main_requests_authorized 2 (test_fs test_config_json) true true _ code u sent
           (mkConfig "KEY" "ru" "y1q9") eq_refl E).
Defined.

End Main.
